(** * Live stock tracker: the candle endpoint and the quote stream

    A shallow embedding of [main.go]: the two Finnhub calls
    ([fetchQuote], [fetchCandles]), the HTTP handler [handleCandles] and the
    WebSocket handler [handleWS], followed by the properties of the design
    document that concern them.

    What the program obtains from outside (the clock, the HTTP exchange with
    Finnhub, the WebSocket peer, the ticker) is passed to the embedded
    functions as explicit arguments; what it does to the outside (requests,
    log lines, frames written, deferred calls) is returned as data. *)

From Stdlib Require Import ZArith String Ascii List Lia.
From Stdlib Require Import Floats.PrimFloat.
From stdpp Require Import base gmap strings list pretty.

Local Open Scope string_scope.
Local Open Scope list_scope.
Local Open Scope Z_scope.

(* ===================================================================== *)
(** * The Go runtime and library operations the program relies on *)
(* ===================================================================== *)

Module Go.

(** ** Machine integers: [int], [int64] and [time.Duration] are 64 bits *)

Definition minInt64 : Z := - 2 ^ 63.
Definition maxInt64 : Z := 2 ^ 63 - 1.

(** Two's complement wrap-around of an exact result. *)
Definition wrap64 (z : Z) : Z := (z + 2 ^ 63) mod 2 ^ 64 - 2 ^ 63.

Definition neg64 (a : Z) : Z := wrap64 (- a).
Definition mul64 (a b : Z) : Z := wrap64 (a * b).

Definition inInt64 (z : Z) : bool := (minInt64 <=? z) && (z <=? maxInt64).

(** ** [float64] *)

Abbreviation float64 := PrimFloat.float.

(** ** Slices: [nil] is not the empty slice (they encode differently) *)

Definition slice (A : Type) : Type := option (list A).

Definition len {A} (s : slice A) : Z :=
  match s with
  | None => 0
  | Some l => Z.of_nat (length l)
  end.

(** ** Errors *)

(** The kind of JSON value named by a [*json.UnmarshalTypeError]. *)
Inductive jkind := KBool | KNumber | KString | KArray | KObject.

Inductive error :=
| ErrorString (text : string)
    (* an error known by its text: transport, [fmt.Errorf], syntax, I/O *)
| UnmarshalTypeError (Value : jkind) (Field : string).
    (* a JSON value that does not fit the Go field it is stored into *)

(** ** [time] : instants are wall-clock nanoseconds since the Unix epoch *)

Definition Time : Type := Z.
Definition Duration : Type := Z.

Definition Millisecond : Duration := 1000000.
Definition Second : Duration := 1000 * Millisecond.
Definition Minute : Duration := 60 * Second.

(** [t.Add(d)]. The saturation of [Add] is out of reach of a 64-bit
    duration added to a clock reading of the current era. *)
Definition Add (t : Time) (d : Duration) : Time := t + d.

(** [t.Unix()] and [t.UnixMilli()]: whole seconds, whole milliseconds
    (rounded towards minus infinity, as [Z.div] does). *)
Definition Unix (t : Time) : Z := t / Second.
Definition UnixMilli (t : Time) : Z := t / Millisecond.

(** ** [time.Ticker]

    A ticker armed at [armedAt] fires at [armedAt + k * period] for
    k = 1, 2, ...; its channel holds one firing, and a firing that finds the
    channel full is dropped. [lastRecv] is when the channel was last
    emptied (when the ticker was armed, at first). *)
Record Ticker := {
  armedAt : Z;
  period : Duration;
  lastRecv : Z
}.

Definition NewTicker (now : Z) (d : Duration) : Ticker :=
  {| armedAt := now; period := d; lastRecv := now |}.

(** Receiving from the channel at [now]: the firing held by the channel is
    the first one after [lastRecv]; the receiver has it at once when it has
    fired by [now], and waits for it otherwise. *)
Definition recv (tk : Ticker) (now : Z) : Z * Ticker :=
  let k := (lastRecv tk - armedAt tk) / period tk + 1 in
  let fired := armedAt tk + k * period tk in
  let t := Z.max now fired in
  (t, {| armedAt := armedAt tk; period := period tk; lastRecv := t |}).

(** ** [url.Values] and its [Get] *)

Abbreviation Values := (gmap string (list string)).

Definition Get (v : Values) (key : string) : string :=
  match v !! key with
  | Some (x :: _) => x
  | _ => ""
  end.

(** ** [strconv.Atoi] for a 64-bit [int]

    An optional sign, then one or more decimal digits and nothing else,
    the value within the range of [int]; [None] stands for the
    [*NumError] returned otherwise. *)

Definition digit (c : ascii) : option Z :=
  let n := Z.of_nat (nat_of_ascii c) in
  if (48 <=? n) && (n <=? 57) then Some (n - 48) else None.

Fixpoint digits (acc : Z) (s : string) : option Z :=
  match s with
  | EmptyString => Some acc
  | String c r =>
      match digit c with
      | Some d => digits (acc * 10 + d) r
      | None => None
      end
  end.

Definition Atoi (s : string) : option Z :=
  match s with
  | EmptyString => None
  | String c r =>
      let neg := Ascii.eqb c "-" in
      let body := if neg || Ascii.eqb c "+" then r else s in
      match body with
      | EmptyString => None
      | _ =>
          match digits 0 body with
          | Some n =>
              let v := if neg then - n else n in
              if inInt64 v then Some v else None
          | None => None
          end
      end
  end.

(** ** JSON text, as [encoding/json] scans it *)

(** A number carries the [float64] that [strconv.ParseFloat] gives its
    literal, [None] when the literal is out of the range of [float64].
    An object keeps its members in order, duplicates included. *)
#[warnings="-register-all"]
Inductive json :=
| JNull
| JBool (b : bool)
| JNum (x : option float64)
| JStr (s : string)
| JArr (items : list json)
| JObj (members : list (string * json)).

(** What a [json.Decoder] finds at the head of a response body: no
    well-formed JSON value (the error [Decode] then returns), or the value. *)
Inductive jsonBody :=
| Malformed (e : error)
| WellFormed (v : json).

(** Field names are matched without regard to ASCII letter case. *)
Definition upper (c : ascii) : ascii :=
  let n := nat_of_ascii c in
  if (97 <=? n)%nat && (n <=? 122)%nat then ascii_of_nat (n - 32) else c.

Fixpoint foldName (s : string) : string :=
  match s with
  | EmptyString => EmptyString
  | String c r => String (upper c) (foldName r)
  end.

Definition sameName (tag key : string) : bool :=
  String.eqb (foldName tag) (foldName key).

(** Storing a JSON value into a [float64] field: a number in range is
    stored, [null] leaves the field as it is, anything else is a type
    error and leaves the field as it is. *)
Definition storeFloat64 (field : string) (v : json) (old : float64)
  : float64 * option error :=
  match v with
  | JNull => (old, None)
  | JNum (Some f) => (f, None)
  | JNum None => (old, Some (UnmarshalTypeError KNumber field))
  | JBool _ => (old, Some (UnmarshalTypeError KBool field))
  | JStr _ => (old, Some (UnmarshalTypeError KString field))
  | JArr _ => (old, Some (UnmarshalTypeError KArray field))
  | JObj _ => (old, Some (UnmarshalTypeError KObject field))
  end.

(** The decoder goes on after a type error and reports the first one. *)
Definition saveError (saved new : option error) : option error :=
  match saved with
  | Some e => Some e
  | None => new
  end.

(** ** HTTP *)

(** [httpClient.Get(url)]: a transport error, or a response with its
    status code, status line and body. *)
Inductive httpResult (B : Type) :=
| GetError (e : error)
| Response (StatusCode : Z) (Status : string) (Body : B).
Arguments GetError {B} e.
Arguments Response {B} StatusCode Status Body.

Definition StatusOK : Z := 200.
Definition StatusBadRequest : Z := 400.
Definition StatusInternalServerError : Z := 500.

(** ** Values handed to the JSON encoder *)

#[warnings="-register-all"]
Inductive any :=
| VString (s : string)
| VFloat64 (f : float64)
| VInt64 (n : Z)
| VInt64s (s : slice Z)
| VFloat64s (s : slice float64)
| VAnys (s : slice any).

Inductive payload :=
| MapString (m : gmap string string)     (* map[string]string *)
| MapAny (m : gmap string any).          (* map[string]any *)

End Go.

Import Go.

(* ===================================================================== *)
(** * main.go *)
(* ===================================================================== *)

(** ** Constants *)

Definition apiKey : string := "d2eb0h1r01qr1ro92pd0d2eb0h1r01qr1ro92pdg".
Definition livePollInterval : Duration := 5 * Second.

(** ** Finnhub REST responses *)

Module QuoteResp.
Record t := {
  Current : float64;    (* json:"c" *)
  High : float64;       (* json:"h" *)
  Low : float64;        (* json:"l" *)
  Open : float64;       (* json:"o" *)
  PrevClose : float64   (* json:"pc" *)
}.
End QuoteResp.
Abbreviation quoteResp := QuoteResp.t.

Module CandleResp.
Record t := {
  Close : slice float64;    (* json:"c" *)
  High : slice float64;     (* json:"h" *)
  Low : slice float64;      (* json:"l" *)
  Open : slice float64;     (* json:"o" *)
  Time : slice Z;           (* json:"t", UNIX seconds *)
  Volume : slice float64;   (* json:"v" *)
  S : string                (* json:"s", "ok" or "no_data" *)
}.
End CandleResp.
Abbreviation candleResp := CandleResp.t.

(** ** HTTP helpers *)

(** What a handler leaves behind: the response written (header, status,
    encoded value), the lines logged and the URLs requested upstream. *)
Record response := {
  ContentType : string;
  Status : Z;
  Body : payload
}.

Record logLine := { prefix : string; cause : error }.

Record served := {
  written : response;
  logged : list logLine;
  requested : list string
}.

Definition writeJSON (status : Z) (v : payload) : response :=
  {| ContentType := "application/json"; Status := status; Body := v |}.

Definition badRequest (msg : string) : response :=
  writeJSON StatusBadRequest (MapString {[ "error" := msg ]}).

Definition serverError (err : error) : list logLine * response :=
  ([ {| prefix := "server error:"; cause := err |} ],
   writeJSON StatusInternalServerError
     (MapString {[ "error" := "internal_error" ]})).

(** ** Finnhub calls *)

(** [json.NewDecoder(resp.Body).Decode(&q)] for a [quoteResp]: the members
    of an object are stored one after the other into the fields they name,
    members naming no field are skipped; [null] leaves [q] as it is; any
    other value is a type error. *)

Definition zeroQuote : quoteResp :=
  {| QuoteResp.Current := 0; QuoteResp.High := 0; QuoteResp.Low := 0;
     QuoteResp.Open := 0; QuoteResp.PrevClose := 0 |}%float.

Definition setQuoteField (q : quoteResp) (key : string) (v : json)
  : quoteResp * option error :=
  let '(QuoteResp.Build_t c h l o pc) := q in
  if sameName "c" key then
    let (x, e) := storeFloat64 "c" v c in (QuoteResp.Build_t x h l o pc, e)
  else if sameName "h" key then
    let (x, e) := storeFloat64 "h" v h in (QuoteResp.Build_t c x l o pc, e)
  else if sameName "l" key then
    let (x, e) := storeFloat64 "l" v l in (QuoteResp.Build_t c h x o pc, e)
  else if sameName "o" key then
    let (x, e) := storeFloat64 "o" v o in (QuoteResp.Build_t c h l x pc, e)
  else if sameName "pc" key then
    let (x, e) := storeFloat64 "pc" v pc in (QuoteResp.Build_t c h l o x, e)
  else (q, None).

Fixpoint decodeQuoteMembers (ms : list (string * json)) (q : quoteResp)
    (saved : option error) : quoteResp * option error :=
  match ms with
  | [] => (q, saved)
  | (key, v) :: rest =>
      let (q', e) := setQuoteField q key v in
      decodeQuoteMembers rest q' (saveError saved e)
  end.

Definition decodeQuote (body : jsonBody) (q : quoteResp)
  : quoteResp * option error :=
  match body with
  | Malformed e => (q, Some e)
  | WellFormed JNull => (q, None)
  | WellFormed (JObj ms) => decodeQuoteMembers ms q None
  | WellFormed (JBool _) => (q, Some (UnmarshalTypeError KBool ""))
  | WellFormed (JNum _) => (q, Some (UnmarshalTypeError KNumber ""))
  | WellFormed (JStr _) => (q, Some (UnmarshalTypeError KString ""))
  | WellFormed (JArr _) => (q, Some (UnmarshalTypeError KArray ""))
  end.

Definition quoteURL (symbol : string) : string :=
  ("https://finnhub.io/api/v1/quote?symbol=" ++ symbol
     ++ "&token=" ++ apiKey)%string.

Definition fetchQuote (get : string -> httpResult jsonBody) (symbol : string)
  : string * (error + quoteResp) :=
  let url := quoteURL symbol in
  (url,
   match get url with
   | GetError err => inl err
   | Response code status body =>
       if (code <? 200) || (300 <=? code) then
         inl (ErrorString ("quote status " ++ status)%string)
       else
         match decodeQuote body zeroQuote with
         | (_, Some err) => inl err
         | (q, None) => inr q
         end
   end).

(** The window asked of Finnhub. The clock is read twice: [now1] is the
    reading behind [to], [now2] the later one behind [from]. *)
Definition candleWindow (minutes : Z) (now1 now2 : Time) : Z * Z :=
  let minutes := if minutes <=? 0 then 60 else minutes in
  let to := Unix now1 in
  let from := Unix (Add now2 (mul64 (neg64 minutes) Minute)) in
  (from, to).

Definition candleURL (symbol : string) (from to : Z) : string :=
  ("https://finnhub.io/api/v1/stock/candle?symbol=" ++ symbol
     ++ "&resolution=1&from=" ++ pretty from ++ "&to=" ++ pretty to
     ++ "&token=" ++ apiKey)%string.

(** The body of a candle response is given by what
    [json.NewDecoder(resp.Body).Decode(&c)] makes of it: an error, or the
    decoded [candleResp]. *)
Definition fetchCandles (get : string -> httpResult (error + candleResp))
    (now1 now2 : Time) (symbol : string) (minutes : Z)
  : string * (error + candleResp) :=
  let (from, to) := candleWindow minutes now1 now2 in
  let url := candleURL symbol from to in
  (url,
   match get url with
   | GetError err => inl err
   | Response code status body =>
       if (code <? 200) || (300 <=? code) then
         inl (ErrorString ("candle status " ++ status)%string)
       else body
   end).

(** ** HTTP handlers *)

(** The window a request asks for: [minutes] of the query when it is an
    integer from 1 to 5000, else 60. *)
Definition queryMinutes (minStr : string) : Z :=
  let minutes := 60 in
  if negb (String.eqb minStr "") then
    match Atoi minStr with
    | Some v => if (0 <? v) && (v <=? 5000) then v else minutes
    | None => minutes
    end
  else minutes.

(** GET /api/candles?symbol=TSLA&minutes=60 *)
Definition handleCandles (get : string -> httpResult (error + candleResp))
    (now1 now2 : Time) (query : Values) : served :=
  let symbol := Get query "symbol" in
  if String.eqb symbol "" then
    {| written := badRequest "symbol is required";
       logged := []; requested := [] |}
  else
    let minutes := queryMinutes (Get query "minutes") in
    match fetchCandles get now1 now2 symbol minutes with
    | (url, inl err) =>
        let (lines, r) := serverError err in
        {| written := r; logged := lines; requested := [url] |}
    | (url, inr c) =>
        if negb (String.eqb (CandleResp.S c) "ok")
           || (len (CandleResp.Time c) =? 0) then
          {| written := writeJSON StatusOK (MapAny
               {[ "symbol" := VString symbol;
                  "status" := VString (CandleResp.S c);
                  "candles" := VAnys (Some []) ]});
             logged := []; requested := [url] |}
        else
          {| written := writeJSON StatusOK (MapAny
               {[ "symbol" := VString symbol;
                  "status" := VString (CandleResp.S c);
                  "t" := VInt64s (CandleResp.Time c);
                  "o" := VFloat64s (CandleResp.Open c);
                  "h" := VFloat64s (CandleResp.High c);
                  "l" := VFloat64s (CandleResp.Low c);
                  "c" := VFloat64s (CandleResp.Close c);
                  "v" := VFloat64s (CandleResp.Volume c) ]});
             logged := []; requested := [url] |}
    end.

(** ** The quote stream *)

(** What one call of [sendQuote] meets outside the program: how long the
    request to Finnhub takes and what comes back, the two readings of the
    wall clock, how long the write takes and whether it fails. Durations
    are in nanoseconds. *)
Record exchange := {
  fetchTime : N;
  reply : httpResult jsonBody;
  wallAtPayload : Time;
  wallAtDeadline : Time;
  writeTime : N;
  writeErr : option error
}.

(** What a session does, in order; [at_] is the session's monotonic clock
    when the call is made. *)
Inductive event :=
| Log (l : logLine)
| TickerArmed (at_ : Z) (d : Duration)
| HttpGet (at_ : Z) (url : string)
| SetWriteDeadline (t : Time)
| WriteJSON (at_ : Z) (v : payload) (err : option error)
| Tick (at_ : Z)
| TickerStop
| ConnClose.

(** Whether [handleWS] has returned, or is blocked receiving from the
    ticker's channel (as far as the run was followed). *)
Inductive progress := Returned | Blocked.

Definition symbolOf (query : Values) : string :=
  let symbol := Get query "symbol" in
  if String.eqb symbol "" then "AAPL" else symbol.

(** The closure [sendQuote] of [handleWS], started at [clock]: its events,
    the clock when it returns, and the error it returns. *)
Definition sendQuote (symbol : string) (x : exchange) (clock : Z)
  : list event * Z * option error :=
  let (url, r) := fetchQuote (fun _ => reply x) symbol in
  let clock1 := clock + Z.of_N (fetchTime x) in
  match r with
  | inl err => ([HttpGet clock url], clock1, Some err)
  | inr q =>
      let payload := MapAny
        {[ "symbol" := VString symbol;
           "price" := VFloat64 (QuoteResp.Current q);
           "time" := VInt64 (UnixMilli (wallAtPayload x)) ]} in
      ([HttpGet clock url;
        SetWriteDeadline (Add (wallAtDeadline x) (5 * Second));
        WriteJSON clock1 payload (writeErr x)],
       clock1 + Z.of_N (writeTime x),
       writeErr x)
  end.

(** [for range ticker.C { ... }], followed for at most [fuel] firings; [k]
    counts the calls of [sendQuote] made so far. *)
Fixpoint tickLoop (fuel : nat) (symbol : string) (env : nat -> exchange)
    (k : nat) (ticker : Ticker) (clock : Z) : list event * progress :=
  match fuel with
  | O => ([], Blocked)
  | S fuel' =>
      let (t, ticker') := recv ticker clock in
      match sendQuote symbol (env k) t with
      | (evs, _, Some err) =>
          (Tick t :: evs ++ [Log {| prefix := "ws send:"; cause := err |}],
           Returned)
      | (evs, clock', None) =>
          let (rest, p) := tickLoop fuel' symbol env (S k) ticker' clock' in
          (Tick t :: evs ++ rest, p)
      end
  end.

(** WS /ws?symbol=TSLA. [upgrade] is the error of [upgrader.Upgrade], if
    any; [start] is the clock once the connection is upgraded. The deferred
    calls run, last deferred first, when the function returns. *)
Definition handleWS (upgrade : option error) (env : nat -> exchange)
    (start : Z) (fuel : nat) (query : Values) : list event * progress :=
  let symbol := symbolOf query in
  match upgrade with
  | Some err => ([Log {| prefix := "ws upgrade:"; cause := err |}], Returned)
  | None =>
      let deferred := [ConnClose] in
      let ticker := NewTicker start livePollInterval in
      let deferred := TickerStop :: deferred in
      let (evs, p) :=
        match sendQuote symbol (env 0%nat) start with
        | (evs, _, Some err) =>
            (evs ++ [Log {| prefix := "ws first send:"; cause := err |}],
             Returned)
        | (evs, clock, None) =>
            let (rest, p) := tickLoop fuel symbol env 1%nat ticker clock in
            (evs ++ rest, p)
        end in
      (TickerArmed start livePollInterval :: evs
         ++ match p with Returned => deferred | Blocked => [] end,
       p)
  end.

(* ===================================================================== *)
(** * Reading what a handler did *)
(* ===================================================================== *)

(** The lengths of the six sequences of a candle response, in the order
    t, o, h, l, c, v; [None] when the body is not of that shape. *)
Definition seqLen (v : any) : option Z :=
  match v with
  | VInt64s s => Some (len s)
  | VFloat64s s => Some (len s)
  | _ => None
  end.

Definition sequenceLengths (r : response) : option (list Z) :=
  match Body r with
  | MapAny m => mapM (fun k => m !! k ≫= seqLen) ["t"; "o"; "h"; "l"; "c"; "v"]
  | MapString _ => None
  end.

(** "The six sequences have identical length." *)
Definition identicalLengths (r : response) : bool :=
  match sequenceLengths r with
  | Some (n :: rest) => forallb (Z.eqb n) rest
  | _ => false
  end.

(** A response of the client-error class. *)
Definition is4xx (r : response) : bool :=
  (400 <=? Status r) && (Status r <? 500).

(** The ways [fetchCandles] fails on what [httpClient.Get] hands back. *)
Inductive upstreamFailure : httpResult (error + candleResp) -> error -> Prop :=
| transportFailure err :
    upstreamFailure (GetError err) err
| statusFailure code status body :
    code < 200 \/ 300 <= code ->
    upstreamFailure (Response code status body)
      (ErrorString ("candle status " ++ status)%string)
| decodeFailure code status err :
    200 <= code < 300 ->
    upstreamFailure (Response code status (inl err)) err.

(** The largest window, in minutes, whose length in nanoseconds fits a
    [time.Duration]. *)
Definition maxMinutes : Z := 153722867.

(** The URL [handleCandles] requests for a query that names a symbol. *)
Definition candlesRequest (now1 now2 : Time) (query : Values) : string :=
  let w := candleWindow (queryMinutes (Get query "minutes")) now1 now2 in
  candleURL (Get query "symbol") (fst w) (snd w).

(** Members of a quote object that name a field of [quoteResp], and the
    values a [float64] field takes without error. *)
Definition namesQuoteField (key : string) : bool :=
  sameName "c" key || sameName "h" key || sameName "l" key
  || sameName "o" key || sameName "pc" key.

Definition fitsFloat64 (v : json) : bool :=
  match v with
  | JNull | JNum (Some _) => true
  | _ => false
  end.

Definition memberFits (kv : string * json) : bool :=
  negb (namesQuoteField (fst kv)) || fitsFloat64 (snd kv).

(** ** Reading the events of a session *)

Definition isArmed (e : event) : bool :=
  match e with TickerArmed _ _ => true | _ => false end.

Definition isGet (e : event) : bool :=
  match e with HttpGet _ _ => true | _ => false end.

Definition isTick (e : event) : bool :=
  match e with Tick _ => true | _ => false end.

(** A message is sent by a write that returns no error. *)
Definition isSent (e : event) : bool :=
  match e with WriteJSON _ _ None => true | _ => false end.

Definition isLog (e : event) : bool :=
  match e with Log _ => true | _ => false end.

Definition isStop (e : event) : bool :=
  match e with TickerStop => true | _ => false end.

Definition isClose (e : event) : bool :=
  match e with ConnClose => true | _ => false end.

Definition count (p : event -> bool) (tr : list event) : nat :=
  length (List.filter p tr).

(** For each message sent, in order: how many firings of the ticker had
    been received before it, and when its write was made. *)
Fixpoint sentFrom (seen : nat) (tr : list event) : list (nat * Z) :=
  match tr with
  | [] => []
  | Tick _ :: rest => sentFrom (S seen) rest
  | WriteJSON t _ None :: rest => (seen, t) :: sentFrom seen rest
  | _ :: rest => sentFrom seen rest
  end.

Definition sent (tr : list event) : list (nat * Z) := sentFrom 0 tr.

(** When each firing of the ticker was received, in order. *)
Fixpoint tickTimes (tr : list event) : list Z :=
  match tr with
  | [] => []
  | Tick t :: rest => t :: tickTimes rest
  | _ :: rest => tickTimes rest
  end.

(** The values handed to [conn.WriteJSON], in order. *)
Fixpoint payloads (tr : list event) : list payload :=
  match tr with
  | [] => []
  | WriteJSON _ v _ :: rest => v :: payloads rest
  | _ :: rest => payloads rest
  end.

Fixpoint firstIndex (p : event -> bool) (tr : list event) : option nat :=
  match tr with
  | [] => None
  | e :: rest => if p e then Some O else option_map S (firstIndex p rest)
  end.

(** "The first message is sent before the ticker is armed." *)
Definition sentBeforeArmed (tr : list event) : bool :=
  match firstIndex isSent tr, firstIndex isArmed tr with
  | Some i, Some j => (i <? j)%nat
  | _, _ => false
  end.

(** "Consecutive messages are at least [d] apart." *)
Fixpoint spacedBy (d : Duration) (times : list Z) : bool :=
  match times with
  | a :: (b :: _) as rest => (a + d <=? b) && spacedBy d rest
  | _ => true
  end.

(** One call of [sendQuote] fails with [err]: the fetch fails, or the
    fetch succeeds and the write fails. *)
Inductive sendFails (symbol : string) (x : exchange) : error -> Prop :=
| fetchFails err :
    snd (fetchQuote (fun _ => reply x) symbol) = inl err ->
    sendFails symbol x err
| writeFails q err :
    snd (fetchQuote (fun _ => reply x) symbol) = inr q ->
    writeErr x = Some err ->
    sendFails symbol x err.

Definition sendSucceeds (symbol : string) (x : exchange) : Prop :=
  exists q, snd (fetchQuote (fun _ => reply x) symbol) = inr q
            /\ writeErr x = None.

(** The keys of the object a response carries. *)
Definition bodyKeys (r : response) : gset string :=
  match Body r with
  | MapString m => dom m
  | MapAny m => dom m
  end.

(** The largest window, in minutes, whose length in nanoseconds is below
    2^64: up to it, a window that does not fit a [time.Duration] wraps
    once. *)
Definition maxWrappedMinutes : Z := 307445734.

(** The fields of [quoteResp], each under the name its tag gives it. *)
Definition quoteFields : list (string * (quoteResp -> float64)) :=
  [("c", QuoteResp.Current); ("h", QuoteResp.High); ("l", QuoteResp.Low);
   ("o", QuoteResp.Open); ("pc", QuoteResp.PrevClose)].

(** The members of a quote object that name a field of [quoteResp]. *)
Definition fieldMembers (ms : list (string * json)) : list (string * json) :=
  List.filter (fun kv => namesQuoteField (fst kv)) ms.

(** ** More readings of a session *)

Definition isWrite (e : event) : bool :=
  match e with WriteJSON _ _ _ => true | _ => false end.

(** When each request to Finnhub was made, and for which URL. *)
Definition getTimes (tr : list event) : list Z :=
  omap (fun e => match e with HttpGet t _ => Some t | _ => None end) tr.

Definition getURLs (tr : list event) : list string :=
  omap (fun e => match e with HttpGet _ url => Some url | _ => None end) tr.

(** The write deadlines set, and when each write was made. *)
Definition deadlines (tr : list event) : list Time :=
  omap (fun e => match e with SetWriteDeadline d => Some d | _ => None end) tr.

Definition writeTimes (tr : list event) : list Z :=
  omap (fun e => match e with WriteJSON t _ _ => Some t | _ => None end) tr.

(** The clock of the events that carry one, in the order of the events. *)
Definition eventTime (e : event) : option Z :=
  match e with
  | TickerArmed t _ | HttpGet t _ | WriteJSON t _ _ | Tick t => Some t
  | _ => None
  end.

Definition times (tr : list event) : list Z := omap eventTime tr.

(** "Every write directly follows a call of [SetWriteDeadline]"; [set]
    tells whether the event before was one. *)
Fixpoint writesUnderDeadline (set : bool) (tr : list event) : bool :=
  match tr with
  | [] => true
  | SetWriteDeadline _ :: rest => writesUnderDeadline true rest
  | WriteJSON _ _ _ :: rest => set && writesUnderDeadline false rest
  | _ :: rest => writesUnderDeadline false rest
  end.

(** The events of a call of [sendQuote] at [t] whose fetch gave [q]. *)
Definition sendEvents (symbol : string) (q : quoteResp) (x : exchange) (t : Z)
  : list event :=
  [HttpGet t (quoteURL symbol);
   SetWriteDeadline (Add (wallAtDeadline x) (5 * Second));
   WriteJSON (t + Z.of_N (fetchTime x))
     (MapAny {[ "symbol" := VString symbol;
                "price" := VFloat64 (QuoteResp.Current q);
                "time" := VInt64 (UnixMilli (wallAtPayload x)) ]})
     (writeErr x)].

(** The shapes the events of [tickLoop] take, entered at [clock] with
    [k] calls of [sendQuote] made: followed no further; a firing whose
    fetch fails; a firing whose write fails; a firing that sends its
    message, and the loop again. *)
Inductive loopRun (symbol : string) (env : nat -> exchange)
  : nat -> Ticker -> Z -> list event -> progress -> Prop :=
| loopBlocked k tk clock :
    loopRun symbol env k tk clock [] Blocked
| loopFetchFails k tk clock err :
    snd (fetchQuote (fun _ => reply (env k)) symbol) = inl err ->
    loopRun symbol env k tk clock
      [Tick (fst (recv tk clock));
       HttpGet (fst (recv tk clock)) (quoteURL symbol);
       Log {| prefix := "ws send:"; cause := err |}]
      Returned
| loopWriteFails k tk clock q err :
    snd (fetchQuote (fun _ => reply (env k)) symbol) = inr q ->
    writeErr (env k) = Some err ->
    loopRun symbol env k tk clock
      (Tick (fst (recv tk clock))
         :: sendEvents symbol q (env k) (fst (recv tk clock))
         ++ [Log {| prefix := "ws send:"; cause := err |}])
      Returned
| loopSent k tk clock q rest p :
    snd (fetchQuote (fun _ => reply (env k)) symbol) = inr q ->
    writeErr (env k) = None ->
    loopRun symbol env (S k) (snd (recv tk clock))
      (fst (recv tk clock) + Z.of_N (fetchTime (env k))
       + Z.of_N (writeTime (env k))) rest p ->
    loopRun symbol env k tk clock
      (Tick (fst (recv tk clock))
         :: sendEvents symbol q (env k) (fst (recv tk clock)) ++ rest)
      p.

(** Events that neither log, nor stop the ticker, nor close the
    connection. *)
Definition quiet (tr : list event) : bool :=
  forallb (fun e => negb (isLog e || isStop e || isClose e)) tr.

(* ===================================================================== *)
(** * Sample exchanges *)
(* ===================================================================== *)

(** GET /api/candles?symbol=TSLA&minutes=30, and the same without a
    usable [minutes]. *)
Definition tsla30 : Values := {[ "symbol" := ["TSLA"]; "minutes" := ["30"] ]}.
Definition tslaBadMinutes : Values :=
  {[ "symbol" := ["TSLA"]; "minutes" := ["9000"] ]}.

Definition clockA : Time := 1700000000999999999.
Definition clockB : Time := 1700000001000000000.

Definition okBars : candleResp :=
  {| CandleResp.Close := Some [11; 11.5]; CandleResp.High := Some [12; 12];
     CandleResp.Low := Some [9; 9]; CandleResp.Open := Some [10; 11];
     CandleResp.Time := Some [1000; 1060]%Z;
     CandleResp.Volume := Some [100; 150]; CandleResp.S := "ok" |}%float.

(** {"s":"no_data"} *)
Definition noData : candleResp :=
  {| CandleResp.Close := None; CandleResp.High := None;
     CandleResp.Low := None; CandleResp.Open := None;
     CandleResp.Time := None; CandleResp.Volume := None;
     CandleResp.S := "no_data" |}.

(** {"s":"ok","t":[1000,1060],"o":[10],"h":[12,12],"l":[9,9],
     "c":[11,11.5],"v":[100,150]} *)
Definition raggedBars : candleResp :=
  {| CandleResp.Close := Some [11; 11.5]; CandleResp.High := Some [12; 12];
     CandleResp.Low := Some [9; 9]; CandleResp.Open := Some [10];
     CandleResp.Time := Some [1000; 1060]%Z;
     CandleResp.Volume := Some [100; 150]; CandleResp.S := "ok" |}%float.

Definition answering (c : candleResp)
  : string -> httpResult (error + candleResp) :=
  fun _ => Response 200 "200 OK" (inr c).

Definition refusing : string -> httpResult (error + candleResp) :=
  fun _ => Response 429 "429 Too Many Requests" (inr noData).

(** Quote bodies: {"c":189.5,"h":190}, {"h":190} and {"c":"abc"}. *)
Definition quoteBody : jsonBody :=
  WellFormed (JObj [("c", JNum (Some 189.5%float));
                    ("h", JNum (Some 190%float))]).
Definition quoteBodyNoPrice : jsonBody :=
  WellFormed (JObj [("h", JNum (Some 190%float))]).
Definition quoteBodyText : jsonBody :=
  WellFormed (JObj [("c", JStr "abc")]).

(** A session whose first fetch takes 4 s and whose later ones take 0.1 s,
    and one whose third fetch finds Finnhub refusing. *)
Definition slowFetch : exchange :=
  {| fetchTime := 4000000000; reply := Response 200 "200 OK" quoteBody;
     wallAtPayload := 1700000004000000000;
     wallAtDeadline := 1700000004000001000;
     writeTime := 1000000; writeErr := None |}.

Definition fastFetch : exchange :=
  {| fetchTime := 100000000; reply := Response 200 "200 OK" quoteBody;
     wallAtPayload := 1700000005100000000;
     wallAtDeadline := 1700000005100001000;
     writeTime := 1000000; writeErr := None |}.

Definition refusedFetch : exchange :=
  {| fetchTime := 100000000;
     reply := Response 429 "429 Too Many Requests" (Malformed (ErrorString "EOF"));
     wallAtPayload := 1700000010100000000;
     wallAtDeadline := 1700000010100001000;
     writeTime := 1000000; writeErr := None |}.

Definition slowStart (k : nat) : exchange :=
  match k with O => slowFetch | _ => fastFetch end.

Definition thirdRefused (k : nat) : exchange :=
  match k with 2%nat => refusedFetch | _ => fastFetch end.

(** A quote as Finnhub sends it:
    {"c":189.5,"d":1.25,"dp":0.5,"h":190,"l":187.25,"o":188,"pc":188.25,
     "t":1700000000}. *)
Definition finnhubQuote : list (string * json) :=
  [("c", JNum (Some 189.5%float)); ("d", JNum (Some 1.25%float));
   ("dp", JNum (Some 0.5%float)); ("h", JNum (Some 190%float));
   ("l", JNum (Some 187.25%float)); ("o", JNum (Some 188%float));
   ("pc", JNum (Some 188.25%float)); ("t", JNum (Some 1700000000%float))].

(** A session in which every fetch and every write succeeds. *)
Definition steady (k : nat) : exchange := fastFetch.

(* ===================================================================== *)
(** * The embedding on small inputs *)
(* ===================================================================== *)

Example Atoi_accepts :
  Atoi "30" = Some 30 /\ Atoi "+30" = Some 30 /\ Atoi "-5" = Some (-5)
  /\ Atoi "007" = Some 7
  /\ Atoi "9223372036854775807" = Some 9223372036854775807.
Proof. repeat split. Qed.

Example Atoi_rejects :
  Atoi "" = None /\ Atoi "+" = None /\ Atoi "3x" = None /\ Atoi " 7" = None
  /\ Atoi "1_000" = None /\ Atoi "9223372036854775808" = None.
Proof. repeat split. Qed.

Example queryMinutes_samples :
  queryMinutes "30" = 30 /\ queryMinutes "5000" = 5000
  /\ queryMinutes "5001" = 60 /\ queryMinutes "0" = 60
  /\ queryMinutes "-3" = 60 /\ queryMinutes "abc" = 60
  /\ queryMinutes "" = 60.
Proof. repeat split. Qed.

(** A receiver that is early waits for the firing; one that is late has
    the firing held for it, and the firings it missed are gone. *)
Example recv_samples :
  let tk := NewTicker 0 livePollInterval in
  fst (recv tk (4 * Second)) = 5 * Second
  /\ fst (recv tk (12 * Second)) = 12 * Second
  /\ fst (recv (snd (recv tk (12 * Second))) (12 * Second)) = 15 * Second.
Proof. repeat split. Qed.

Example sameName_samples :
  sameName "pc" "PC" = true /\ sameName "c" "C" = true
  /\ sameName "c" "pc" = false /\ sameName "c" "close" = false.
Proof. repeat split. Qed.

(** GET /api/candles?symbol=TSLA&minutes=30 with two bars upstream. *)
Example candles_tsla :
  handleCandles (answering okBars) clockA clockA tsla30
  = {| written :=
         {| ContentType := "application/json"; Status := 200;
            Body := MapAny {[ "symbol" := VString "TSLA";
                              "status" := VString "ok";
                              "t" := VInt64s (Some [1000; 1060]);
                              "o" := VFloat64s (Some [10; 11]%float);
                              "h" := VFloat64s (Some [12; 12]%float);
                              "l" := VFloat64s (Some [9; 9]%float);
                              "c" := VFloat64s (Some [11; 11.5]%float);
                              "v" := VFloat64s (Some [100; 150]%float) ]} |};
       logged := [];
       requested :=
         ["https://finnhub.io/api/v1/stock/candle?symbol=TSLA&resolution=1&from=1699998200&to=1700000000&token=d2eb0h1r01qr1ro92pd0d2eb0h1r01qr1ro92pdg"] |}.
Proof. reflexivity. Qed.

(** A session whose upgrade fails only logs. *)
Example stream_not_upgraded :
  handleWS (Some (ErrorString "websocket: bad handshake")) slowStart 0 3 ∅
  = ([Log {| prefix := "ws upgrade:";
             cause := ErrorString "websocket: bad handshake" |}],
     Returned).
Proof. reflexivity. Qed.

(** A session with no symbol, followed for two firings: what it does and
    when, leaving the values written aside. *)
Example stream_aapl :
  let run := handleWS None slowStart 0 2 ∅ in
  map (fun e => match e with WriteJSON t _ err => WriteJSON t (MapAny ∅) err
                           | e => e end) (fst run)
  = [TickerArmed 0 5000000000;
     HttpGet 0 (quoteURL "AAPL");
     SetWriteDeadline 1700000009000001000;
     WriteJSON 4000000000 (MapAny ∅) None;
     Tick 5000000000;
     HttpGet 5000000000 (quoteURL "AAPL");
     SetWriteDeadline 1700000010100001000;
     WriteJSON 5100000000 (MapAny ∅) None;
     Tick 10000000000;
     HttpGet 10000000000 (quoteURL "AAPL");
     SetWriteDeadline 1700000010100001000;
     WriteJSON 10100000000 (MapAny ∅) None]
  /\ snd run = Blocked
  /\ payloads (fst run) !! 0%nat
     = Some (MapAny {[ "symbol" := VString "AAPL";
                       "price" := VFloat64 189.5%float;
                       "time" := VInt64 1700000004000 ]}).
Proof. repeat split. Qed.

(* ===================================================================== *)
(** * The candle endpoint *)
(* ===================================================================== *)

Lemma is2xx code :
  200 <= code < 300 -> (code <? 200) || (300 <=? code) = false.
Proof.
  intros H. destruct (Z.ltb_spec code 200); [lia|].
  destruct (Z.leb_spec 300 code); [lia|]. reflexivity.
Qed.

Section Candles.

Variable get : string -> httpResult (error + candleResp).
Variables now1 now2 : Time.

Lemma wrap64_small z : minInt64 <= z <= maxInt64 -> wrap64 z = z.
Proof.
  unfold wrap64, minInt64, maxInt64. intros Hz.
  rewrite Z.mod_small; lia.
Qed.

Lemma minutes_duration m :
  0 < m <= maxMinutes -> mul64 (neg64 m) Minute = - (60 * m) * Second.
Proof.
  unfold maxMinutes, mul64, neg64. intros Hm.
  rewrite (wrap64_small (- m)) by (unfold minInt64, maxInt64; lia).
  rewrite wrap64_small; unfold minInt64, maxInt64, Minute, Second, Millisecond; lia.
Qed.

Lemma Unix_Add_seconds t n : Unix (Add t (n * Second)) = Unix t + n.
Proof. unfold Unix, Add. apply Z.div_add. discriminate. Qed.

Lemma candleWindow_small m :
  0 < m <= maxMinutes ->
  candleWindow m now1 now2 = (Unix now2 - 60 * m, Unix now1).
Proof.
  intros Hm. unfold candleWindow.
  destruct (Z.leb_spec m 0) as [H|_]; [lia|].
  rewrite minutes_duration, Unix_Add_seconds by assumption.
  f_equal; lia.
Qed.

Lemma candleWindow_default m :
  m <= 0 -> candleWindow m now1 now2 = (Unix now2 - 3600, Unix now1).
Proof.
  intros Hm. unfold candleWindow.
  destruct (Z.leb_spec m 0) as [_|H]; [|lia].
  rewrite minutes_duration, Unix_Add_seconds by (unfold maxMinutes; lia).
  reflexivity.
Qed.

Lemma fetchCandles_url symbol m :
  fst (fetchCandles get now1 now2 symbol m)
  = candleURL symbol (fst (candleWindow m now1 now2))
                     (snd (candleWindow m now1 now2)).
Proof. unfold fetchCandles. destruct (candleWindow m now1 now2). reflexivity. Qed.

Lemma fetchCandles_result symbol m :
  snd (fetchCandles get now1 now2 symbol m)
  = match get (fst (fetchCandles get now1 now2 symbol m)) with
    | GetError err => inl err
    | Response code status body =>
        if (code <? 200) || (300 <=? code) then
          inl (ErrorString ("candle status " ++ status)%string)
        else body
    end.
Proof. unfold fetchCandles. destruct (candleWindow m now1 now2). reflexivity. Qed.

Lemma fetchCandles_fails symbol m err :
  upstreamFailure (get (fst (fetchCandles get now1 now2 symbol m))) err ->
  snd (fetchCandles get now1 now2 symbol m) = inl err.
Proof.
  rewrite fetchCandles_result.
  generalize (get (fst (fetchCandles get now1 now2 symbol m))).
  intros r H. destruct H as [e|code st b Hc|code st e Hc].
  - reflexivity.
  - destruct Hc as [Hc|Hc].
    + apply Z.ltb_lt in Hc. rewrite Hc. reflexivity.
    + apply Z.leb_le in Hc. rewrite Hc, orb_true_r. reflexivity.
  - rewrite (is2xx _ Hc). reflexivity.
Qed.

Lemma queryMinutes_range minStr : 0 < queryMinutes minStr <= 5000.
Proof.
  unfold queryMinutes.
  destruct (negb (String.eqb minStr "")); [|lia].
  destruct (Atoi minStr) as [v|]; [|lia].
  destruct (Z.ltb_spec 0 v); simpl; [|lia].
  destruct (Z.leb_spec v 5000); lia.
Qed.


Lemma queryMinutes_default minStr :
  minStr = "" \/ Atoi minStr = None
  \/ (exists v, Atoi minStr = Some v /\ (v < 1 \/ 5000 < v)) ->
  queryMinutes minStr = 60.
Proof.
  unfold queryMinutes. intros [->|[H|[v [H Hv]]]]; [reflexivity| |].
  - rewrite H. destruct (negb _); reflexivity.
  - rewrite H. destruct (negb _); [|reflexivity].
    destruct (Z.ltb_spec 0 v); simpl; [|reflexivity].
    destruct (Z.leb_spec v 5000); [lia|reflexivity].
Qed.

Lemma queryMinutes_given minStr v :
  Atoi minStr = Some v -> 1 <= v <= 5000 -> queryMinutes minStr = v.
Proof.
  unfold queryMinutes. intros H Hv.
  destruct minStr as [|a r]; [discriminate H|].
  simpl negb. cbv iota. rewrite H.
  destruct (Z.ltb_spec 0 v); [|lia].
  destruct (Z.leb_spec v 5000); [reflexivity|lia].
Qed.

Lemma candlesRequest_window query :
  candlesRequest now1 now2 query
  = candleURL (Get query "symbol")
      (Unix now2 - 60 * queryMinutes (Get query "minutes")) (Unix now1).
Proof.
  unfold candlesRequest. rewrite candleWindow_small; [reflexivity|].
  pose proof (queryMinutes_range (Get query "minutes")). unfold maxMinutes. lia.
Qed.

Lemma fetchCandles_request query :
  fst (fetchCandles get now1 now2 (Get query "symbol")
         (queryMinutes (Get query "minutes")))
  = candlesRequest now1 now2 query.
Proof. apply fetchCandles_url. Qed.

Lemma symbol_given query :
  Get query "symbol" <> "" -> String.eqb (Get query "symbol") "" = false.
Proof. intros H. apply String.eqb_neq. exact H. Qed.

(** What the handler does once the symbol is there: one request, whose
    outcome decides the answer. *)
Lemma handleCandles_fetch query :
  Get query "symbol" <> "" ->
  handleCandles get now1 now2 query
  = match snd (fetchCandles get now1 now2 (Get query "symbol")
                 (queryMinutes (Get query "minutes"))) with
    | inl err =>
        {| written := snd (serverError err); logged := fst (serverError err);
           requested := [candlesRequest now1 now2 query] |}
    | inr c =>
        if negb (String.eqb (CandleResp.S c) "ok")
           || (len (CandleResp.Time c) =? 0) then
          {| written := writeJSON StatusOK (MapAny
               {[ "symbol" := VString (Get query "symbol");
                  "status" := VString (CandleResp.S c);
                  "candles" := VAnys (Some []) ]});
             logged := []; requested := [candlesRequest now1 now2 query] |}
        else
          {| written := writeJSON StatusOK (MapAny
               {[ "symbol" := VString (Get query "symbol");
                  "status" := VString (CandleResp.S c);
                  "t" := VInt64s (CandleResp.Time c);
                  "o" := VFloat64s (CandleResp.Open c);
                  "h" := VFloat64s (CandleResp.High c);
                  "l" := VFloat64s (CandleResp.Low c);
                  "c" := VFloat64s (CandleResp.Close c);
                  "v" := VFloat64s (CandleResp.Volume c) ]});
             logged := []; requested := [candlesRequest now1 now2 query] |}
    end.
Proof.
  intros Hs. unfold handleCandles. rewrite (symbol_given _ Hs).
  rewrite <- fetchCandles_request.
  destruct (fetchCandles _ _ _ _ _) as [url [err|c]]; reflexivity.
Qed.

Lemma handleCandles_requested query :
  Get query "symbol" <> "" ->
  requested (handleCandles get now1 now2 query)
  = [candlesRequest now1 now2 query].
Proof.
  intros Hs. rewrite (handleCandles_fetch _ Hs).
  destruct (snd _) as [err|c]; [reflexivity|].
  destruct (negb _ || _); reflexivity.
Qed.

Lemma handleCandles_not4xx query :
  Get query "symbol" <> "" ->
  is4xx (written (handleCandles get now1 now2 query)) = false.
Proof.
  intros Hs. rewrite (handleCandles_fetch _ Hs).
  destruct (snd _) as [err|c]; [reflexivity|].
  destruct (negb _ || _); reflexivity.
Qed.

Lemma fetchCandles_succeeds query code status c :
  get (candlesRequest now1 now2 query) = Response code status (inr c) ->
  200 <= code < 300 ->
  snd (fetchCandles get now1 now2 (Get query "symbol")
         (queryMinutes (Get query "minutes"))) = inr c.
Proof.
  intros Hg Hc. rewrite fetchCandles_result, fetchCandles_request, Hg.
  rewrite (is2xx _ Hc). reflexivity.
Qed.

(** C3. A request whose [minutes] is absent, is not a number or lies
    outside 1..5000 asks Finnhub for a window of 60 minutes and is never
    answered with a 4xx status; a [minutes] from 1 to 5000 is the window
    asked for. *)
Theorem handleCandles_minutes query :
  Get query "symbol" <> "" ->
  let minStr := Get query "minutes" in
  let s := handleCandles get now1 now2 query in
  (minStr = "" \/ Atoi minStr = None
   \/ (exists v, Atoi minStr = Some v /\ (v < 1 \/ 5000 < v)) ->
   queryMinutes minStr = 60
   /\ requested s
      = [candleURL (Get query "symbol") (Unix now2 - 60 * 60) (Unix now1)]
   /\ is4xx (written s) = false)
  /\ (forall v, Atoi minStr = Some v -> 1 <= v <= 5000 ->
      queryMinutes minStr = v
      /\ requested s
         = [candleURL (Get query "symbol") (Unix now2 - 60 * v) (Unix now1)]).
Proof.
  intros Hs minStr s. subst s. split.
  - intros Hm. apply queryMinutes_default in Hm.
    rewrite (handleCandles_requested _ Hs), candlesRequest_window.
    fold minStr. rewrite Hm. auto using handleCandles_not4xx.
  - intros v Hv Hr.
    rewrite (handleCandles_requested _ Hs), candlesRequest_window.
    fold minStr. rewrite (queryMinutes_given _ _ Hv Hr). auto.
Qed.

(** C4. Without a [symbol] (absent, or empty) the answer is 400 with
    {"error": "symbol is required"}, and nothing is requested upstream. *)
Theorem handleCandles_symbol_required query :
  query !! "symbol" = None \/ query !! "symbol" = Some []
  \/ (exists rest, query !! "symbol" = Some ("" :: rest)) ->
  handleCandles get now1 now2 query
  = {| written := {| ContentType := "application/json"; Status := 400;
                     Body := MapString {[ "error" := "symbol is required" ]} |};
       logged := []; requested := [] |}.
Proof.
  intros H. unfold handleCandles.
  assert (Get query "symbol" = "") as ->; [|reflexivity].
  unfold Get. destruct H as [->|[->|[rest ->]]]; reflexivity.
Qed.

(** C5. A successful upstream result whose status is not "ok", or whose
    timestamps are empty, is answered 200 with the symbol, the status and
    an empty [candles] array. *)
Theorem handleCandles_empty query code status c :
  Get query "symbol" <> "" ->
  get (candlesRequest now1 now2 query) = Response code status (inr c) ->
  200 <= code < 300 ->
  CandleResp.S c <> "ok" \/ len (CandleResp.Time c) = 0 ->
  written (handleCandles get now1 now2 query)
  = {| ContentType := "application/json"; Status := 200;
       Body := MapAny {[ "symbol" := VString (Get query "symbol");
                         "status" := VString (CandleResp.S c);
                         "candles" := VAnys (Some []) ]} |}
  /\ logged (handleCandles get now1 now2 query) = [].
Proof.
  intros Hs Hg Hc He. rewrite (handleCandles_fetch _ Hs).
  rewrite (fetchCandles_succeeds _ _ _ _ Hg Hc).
  assert (negb (String.eqb (CandleResp.S c) "ok")
          || (len (CandleResp.Time c) =? 0) = true) as ->; [|split; reflexivity].
  destruct He as [He|He].
  - apply String.eqb_neq in He. rewrite He. reflexivity.
  - rewrite He. apply orb_true_r.
Qed.

(** C6 (as the code has it). A successful upstream result with status
    "ok" and timestamps is answered 200 with the six upstream sequences
    as they came: their lengths are the upstream lengths, hence identical
    exactly when the upstream lengths are. *)
Theorem handleCandles_sequences query code status c :
  Get query "symbol" <> "" ->
  get (candlesRequest now1 now2 query) = Response code status (inr c) ->
  200 <= code < 300 ->
  CandleResp.S c = "ok" ->
  len (CandleResp.Time c) <> 0 ->
  let r := written (handleCandles get now1 now2 query) in
  r = {| ContentType := "application/json"; Status := 200;
         Body := MapAny {[ "symbol" := VString (Get query "symbol");
                           "status" := VString "ok";
                           "t" := VInt64s (CandleResp.Time c);
                           "o" := VFloat64s (CandleResp.Open c);
                           "h" := VFloat64s (CandleResp.High c);
                           "l" := VFloat64s (CandleResp.Low c);
                           "c" := VFloat64s (CandleResp.Close c);
                           "v" := VFloat64s (CandleResp.Volume c) ]} |}
  /\ sequenceLengths r
     = Some [len (CandleResp.Time c); len (CandleResp.Open c);
             len (CandleResp.High c); len (CandleResp.Low c);
             len (CandleResp.Close c); len (CandleResp.Volume c)]
  /\ (identicalLengths r = true
      <-> len (CandleResp.Open c) = len (CandleResp.Time c)
          /\ len (CandleResp.High c) = len (CandleResp.Time c)
          /\ len (CandleResp.Low c) = len (CandleResp.Time c)
          /\ len (CandleResp.Close c) = len (CandleResp.Time c)
          /\ len (CandleResp.Volume c) = len (CandleResp.Time c)).
Proof.
  intros Hs Hg Hc Hok Ht r. subst r. rewrite (handleCandles_fetch _ Hs).
  rewrite (fetchCandles_succeeds _ _ _ _ Hg Hc).
  assert (negb (String.eqb (CandleResp.S c) "ok")
          || (len (CandleResp.Time c) =? 0) = false) as ->.
  { rewrite Hok. simpl. apply Z.eqb_neq. exact Ht. }
  rewrite Hok. cbn [written].
  assert (sequenceLengths (writeJSON StatusOK (MapAny
            {[ "symbol" := VString (Get query "symbol");
               "status" := VString "ok";
               "t" := VInt64s (CandleResp.Time c);
               "o" := VFloat64s (CandleResp.Open c);
               "h" := VFloat64s (CandleResp.High c);
               "l" := VFloat64s (CandleResp.Low c);
               "c" := VFloat64s (CandleResp.Close c);
               "v" := VFloat64s (CandleResp.Volume c) ]}))
          = Some [len (CandleResp.Time c); len (CandleResp.Open c);
                  len (CandleResp.High c); len (CandleResp.Low c);
                  len (CandleResp.Close c); len (CandleResp.Volume c)]) as HL
    by reflexivity.
  split; [reflexivity|]. split; [exact HL|].
  unfold identicalLengths. rewrite HL. cbn [forallb].
  rewrite !andb_true_iff, !Z.eqb_eq. intuition lia.
Qed.

(** C7. When the candle fetch fails (transport, status outside 2xx, or
    decoding), the answer is 500 with {"error": "internal_error"}; the
    error goes to the log and the answer does not depend on it. *)
Theorem handleCandles_upstream_failure query err :
  Get query "symbol" <> "" ->
  upstreamFailure (get (candlesRequest now1 now2 query)) err ->
  handleCandles get now1 now2 query
  = {| written := {| ContentType := "application/json"; Status := 500;
                     Body := MapString {[ "error" := "internal_error" ]} |};
       logged := [ {| prefix := "server error:"; cause := err |} ];
       requested := [candlesRequest now1 now2 query] |}.
Proof.
  intros Hs Hf. rewrite (handleCandles_fetch _ Hs).
  rewrite <- fetchCandles_request in Hf.
  rewrite (fetchCandles_fails _ _ _ Hf). reflexivity.
Qed.

(** C8 (as the code has it). For a window of [m] minutes, 60 when [m] is
    not positive, whose length fits a [time.Duration]: [to] is the second
    of the first clock reading and [from] is the second of the second
    reading less 60 m; they are 60 m apart when both readings fall in the
    same second. *)
Theorem fetchCandles_window symbol m :
  let m' := if m <=? 0 then 60 else m in
  m' <= maxMinutes ->
  candleWindow m now1 now2 = (Unix now2 - 60 * m', Unix now1)
  /\ fst (fetchCandles get now1 now2 symbol m)
     = candleURL symbol (Unix now2 - 60 * m') (Unix now1)
  /\ (Unix now2 = Unix now1 ->
      snd (candleWindow m now1 now2) - fst (candleWindow m now1 now2)
      = 60 * m').
Proof.
  intros m' Hm.
  assert (candleWindow m now1 now2 = (Unix now2 - 60 * m', Unix now1)) as HW.
  { subst m'. destruct (Z.leb_spec m 0) as [H|H].
    - apply candleWindow_default. exact H.
    - apply candleWindow_small. lia. }
  split; [exact HW|]. rewrite fetchCandles_url, HW. split; [reflexivity|].
  cbn [fst snd]. lia.
Qed.

End Candles.

(** ** The candle endpoint on the sample exchanges *)

Lemma handleCandles_minutes_witness :
  Get tslaBadMinutes "symbol" <> ""
  /\ queryMinutes (Get tslaBadMinutes "minutes") = 60
  /\ requested (handleCandles (answering okBars) clockA clockB tslaBadMinutes)
     = [candleURL "TSLA" (Unix clockB - 60 * 60) (Unix clockA)]
  /\ is4xx (written (handleCandles (answering okBars) clockA clockB
                       tslaBadMinutes)) = false
  /\ queryMinutes (Get tsla30 "minutes") = 30
  /\ requested (handleCandles (answering okBars) clockA clockB tsla30)
     = [candleURL "TSLA" (Unix clockB - 60 * 30) (Unix clockA)].
Proof.
  assert (Get tslaBadMinutes "symbol" <> "") as Hs by (vm_compute; discriminate).
  assert (Get tsla30 "symbol" <> "") as Hs' by (vm_compute; discriminate).
  split; [exact Hs|].
  destruct (handleCandles_minutes (answering okBars) clockA clockB
              tslaBadMinutes Hs) as [H _].
  destruct (handleCandles_minutes (answering okBars) clockA clockB
              tsla30 Hs') as [_ H'].
  destruct H as (H1 & H2 & H3).
  - right. right. exists 9000. split; [reflexivity|lia].
  - destruct (H' 30) as (H4 & H5); [reflexivity|lia|].
    repeat split; assumption.
Defined.

Lemma handleCandles_symbol_required_witness :
  handleCandles (answering okBars) clockA clockB ∅
  = {| written := {| ContentType := "application/json"; Status := 400;
                     Body := MapString {[ "error" := "symbol is required" ]} |};
       logged := []; requested := [] |}.
Proof.
  apply (handleCandles_symbol_required (answering okBars) clockA clockB ∅).
  left. reflexivity.
Defined.

Lemma handleCandles_empty_witness :
  written (handleCandles (answering noData) clockA clockB tsla30)
  = {| ContentType := "application/json"; Status := 200;
       Body := MapAny {[ "symbol" := VString "TSLA";
                         "status" := VString "no_data";
                         "candles" := VAnys (Some []) ]} |}
  /\ logged (handleCandles (answering noData) clockA clockB tsla30) = [].
Proof.
  apply (handleCandles_empty (answering noData) clockA clockB tsla30
           200 "200 OK" noData).
  - vm_compute. discriminate.
  - reflexivity.
  - lia.
  - left. simpl. discriminate.
Defined.

Lemma handleCandles_sequences_witness :
  sequenceLengths (written (handleCandles (answering okBars) clockA clockB tsla30))
  = Some [2; 2; 2; 2; 2; 2]
  /\ identicalLengths (written (handleCandles (answering okBars)
                                 clockA clockB tsla30)) = true.
Proof.
  destruct (handleCandles_sequences (answering okBars) clockA clockB tsla30
              200 "200 OK" okBars) as (_ & HL & HI).
  - vm_compute. discriminate.
  - reflexivity.
  - lia.
  - reflexivity.
  - simpl. discriminate.
  - split; [exact HL|]. apply HI. repeat split.
Defined.

(** The six sequences of an upstream result are not made equal in length:
    with one opening price for two timestamps, the answer has two
    timestamps and one opening price. *)
Lemma handleCandles_ragged :
  Status (written (handleCandles (answering raggedBars) clockA clockB tsla30))
  = 200
  /\ sequenceLengths (written (handleCandles (answering raggedBars)
                                clockA clockB tsla30))
     = Some [2; 1; 2; 2; 2; 2]
  /\ identicalLengths (written (handleCandles (answering raggedBars)
                                 clockA clockB tsla30)) = false.
Proof. repeat split; reflexivity. Qed.

Lemma handleCandles_upstream_failure_witness :
  handleCandles refusing clockA clockB tsla30
  = {| written := {| ContentType := "application/json"; Status := 500;
                     Body := MapString {[ "error" := "internal_error" ]} |};
       logged := [ {| prefix := "server error:";
                      cause := ErrorString "candle status 429 Too Many Requests" |} ];
       requested := [candlesRequest clockA clockB tsla30] |}.
Proof.
  apply (handleCandles_upstream_failure refusing clockA clockB tsla30).
  - vm_compute. discriminate.
  - apply (statusFailure 429 "429 Too Many Requests" (inr noData)). right. lia.
Defined.

Lemma fetchCandles_window_witness :
  candleWindow 30 clockA clockA = (Unix clockA - 60 * 30, Unix clockA)
  /\ snd (candleWindow 30 clockA clockA) - fst (candleWindow 30 clockA clockA)
     = 60 * 30.
Proof.
  destruct (fetchCandles_window (answering okBars) clockA clockA "TSLA" 30)
    as (H1 & _ & H3).
  - unfold maxMinutes. simpl. lia.
  - split; [exact H1|]. apply H3. reflexivity.
Defined.

(** The clock is read once for [to] and once more for [from]: when a
    second ends between the two readings the window is a second short of
    60 minutes; and a window of 200000000 minutes does not fit a
    [time.Duration], so that [from] lies after [to]. *)
Lemma candleWindow_not_exact :
  snd (candleWindow 60 clockA clockB) = Unix clockA
  /\ snd (candleWindow 60 clockA clockB) - fst (candleWindow 60 clockA clockB)
     = 60 * 60 - 1
  /\ snd (candleWindow 200000000 clockA clockA)
     - fst (candleWindow 200000000 clockA clockA) = - 6446744074.
Proof. repeat split; vm_compute; reflexivity. Qed.

(* ===================================================================== *)
(** * The quote fetch *)
(* ===================================================================== *)

Section Quotes.

Lemma storeFloat64_fits field v old :
  fitsFloat64 v = true -> snd (storeFloat64 field v old) = None.
Proof. destruct v as [| |[x|]| | |]; simpl; intros H; congruence. Qed.

Lemma storeFloat64_unfit field v old :
  fitsFloat64 v = false ->
  exists kind, storeFloat64 field v old
               = (old, Some (UnmarshalTypeError kind field)).
Proof.
  destruct v as [| |[x|]| | |]; simpl; intros H; try discriminate; eauto.
Qed.

Lemma setQuoteField_error q key v :
  snd (setQuoteField q key v) = None <-> memberFits (key, v) = true.
Proof.
  destruct q as [c h l o pc].
  unfold setQuoteField, memberFits, namesQuoteField. cbn [fst snd].
  destruct (sameName "c" key), (sameName "h" key), (sameName "l" key),
    (sameName "o" key), (sameName "pc" key); cbn [orb negb];
    destruct (fitsFloat64 v) eqn:Hv;
    try (split; [reflexivity | intros _];
         match goal with
         | |- context [storeFloat64 ?f v ?x] =>
             pose proof (storeFloat64_fits f v x Hv) as Hs;
             destruct (storeFloat64 f v x); exact Hs
         end);
    try (split; [| discriminate];
         match goal with
         | |- context [storeFloat64 ?f v ?x] =>
             destruct (storeFloat64_unfit f v x Hv) as [kd ->]; discriminate
         end);
    split; reflexivity.
Qed.

Lemma setQuoteField_typeError q key v e :
  snd (setQuoteField q key v) = Some e ->
  exists kind field, e = UnmarshalTypeError kind field.
Proof.
  destruct q as [c h l o pc]. unfold setQuoteField.
  assert (forall f x, snd (storeFloat64 f v x) = Some e ->
                      exists kind field, e = UnmarshalTypeError kind field) as HS.
  { intros f x. destruct v as [| |[y|]| | |]; simpl; intros [= <-]; eauto. }
  destruct (sameName "c" key);
    [destruct (storeFloat64 "c" v c) eqn:E; intros H; apply (HS "c" c); rewrite E; exact H|].
  destruct (sameName "h" key);
    [destruct (storeFloat64 "h" v h) eqn:E; intros H; apply (HS "h" h); rewrite E; exact H|].
  destruct (sameName "l" key);
    [destruct (storeFloat64 "l" v l) eqn:E; intros H; apply (HS "l" l); rewrite E; exact H|].
  destruct (sameName "o" key);
    [destruct (storeFloat64 "o" v o) eqn:E; intros H; apply (HS "o" o); rewrite E; exact H|].
  destruct (sameName "pc" key);
    [destruct (storeFloat64 "pc" v pc) eqn:E; intros H; apply (HS "pc" pc); rewrite E; exact H|].
  discriminate.
Qed.

Lemma setQuoteField_Current q key v :
  (sameName "c" key = true -> v = JNull) ->
  QuoteResp.Current (fst (setQuoteField q key v)) = QuoteResp.Current q.
Proof.
  destruct q as [c h l o pc]. unfold setQuoteField. intros H.
  destruct (sameName "c" key); [rewrite H by reflexivity; reflexivity|].
  destruct (sameName "h" key); [destruct (storeFloat64 _ _ _); reflexivity|].
  destruct (sameName "l" key); [destruct (storeFloat64 _ _ _); reflexivity|].
  destruct (sameName "o" key); [destruct (storeFloat64 _ _ _); reflexivity|].
  destruct (sameName "pc" key); [destruct (storeFloat64 _ _ _); reflexivity|].
  reflexivity.
Qed.

Lemma saveError_None saved e :
  saveError saved e = None <-> saved = None /\ e = None.
Proof. destruct saved, e; simpl; intuition congruence. Qed.

Lemma decodeQuoteMembers_error ms : forall q saved,
  snd (decodeQuoteMembers ms q saved) = None
  <-> saved = None /\ forallb memberFits ms = true.
Proof.
  induction ms as [|[key v] rest IH]; intros q saved; simpl.
  - intuition.
  - pose proof (setQuoteField_error q key v) as HF.
    destruct (setQuoteField q key v) as [q' e]. cbn [snd] in HF.
    rewrite IH, saveError_None, andb_true_iff, HF. intuition.
Qed.

Lemma decodeQuoteMembers_typeError ms : forall q saved e,
  snd (decodeQuoteMembers ms q saved) = Some e ->
  saved = Some e \/ exists kind field, e = UnmarshalTypeError kind field.
Proof.
  induction ms as [|[key v] rest IH]; intros q saved e; simpl.
  - auto.
  - pose proof (setQuoteField_typeError q key v) as HT.
    destruct (setQuoteField q key v) as [q' e']. cbn [snd] in HT.
    intros H. apply IH in H. destruct H as [H|H]; [|auto].
    destruct saved as [s|]; simpl in H; [auto|]. right. apply HT. exact H.
Qed.

Lemma decodeQuoteMembers_Current ms : forall q saved,
  (forall key v, In (key, v) ms -> sameName "c" key = true -> v = JNull) ->
  QuoteResp.Current (fst (decodeQuoteMembers ms q saved)) = QuoteResp.Current q.
Proof.
  induction ms as [|[key v] rest IH]; intros q saved H; simpl.
  - reflexivity.
  - pose proof (setQuoteField_Current q key v (H key v (or_introl eq_refl))) as HC.
    destruct (setQuoteField q key v) as [q' e]. cbn [fst] in HC.
    rewrite IH, HC; [reflexivity|].
    intros k w Hin. apply H. right. exact Hin.
Qed.

Lemma sameName_other t1 t2 key :
  sameName t1 key = true -> sameName t2 key = sameName t2 t1.
Proof.
  unfold sameName. intros H. apply String.eqb_eq in H. rewrite <- H.
  reflexivity.
Qed.

(** A member leaves alone every field it does not name, and a field it
    names when it holds [null]. *)
Lemma setQuoteField_keeps q key v tag proj :
  In (tag, proj) quoteFields ->
  (sameName tag key = true -> v = JNull) ->
  proj (fst (setQuoteField q key v)) = proj q.
Proof.
  intros Hin. destruct q as [c h l o pc]. unfold setQuoteField.
  repeat (destruct Hin as [[= <- <-]|Hin]); [| | | | |destruct Hin];
    destruct (sameName "c" key), (sameName "h" key), (sameName "l" key),
      (sameName "o" key), (sameName "pc" key); intros H;
    first [ rewrite (H eq_refl); reflexivity
          | destruct (storeFloat64 _ _ _); reflexivity
          | reflexivity ].
Qed.

(** A member holding a number stores it into the field it names. *)
Lemma setQuoteField_stores q key f tag proj :
  In (tag, proj) quoteFields ->
  sameName tag key = true ->
  proj (fst (setQuoteField q key (JNum (Some f)))) = f.
Proof.
  intros Hin H. destruct q as [c h l o pc]. unfold setQuoteField.
  repeat (destruct Hin as [[= <- <-]|Hin]); [| | | | |destruct Hin];
    rewrite ?(sameName_other _ "c" key H), ?(sameName_other _ "h" key H),
      ?(sameName_other _ "l" key H), ?(sameName_other _ "o" key H),
      ?(sameName_other _ "pc" key H);
    reflexivity.
Qed.

Lemma decodeQuoteMembers_keeps ms : forall q saved tag proj,
  In (tag, proj) quoteFields ->
  (forall key v, In (key, v) ms -> sameName tag key = true -> v = JNull) ->
  proj (fst (decodeQuoteMembers ms q saved)) = proj q.
Proof.
  induction ms as [|[key v] rest IH]; intros q saved tag proj Hin H; simpl.
  - reflexivity.
  - pose proof (setQuoteField_keeps q key v tag proj Hin
                  (H key v (or_introl eq_refl))) as HK.
    destruct (setQuoteField q key v) as [q' e]. cbn [fst] in HK.
    rewrite (IH q' _ tag proj Hin), HK; [reflexivity|].
    intros k w Hkw. apply H. right. exact Hkw.
Qed.

Lemma decodeQuoteMembers_last pre : forall key f post q saved tag proj,
  In (tag, proj) quoteFields ->
  sameName tag key = true ->
  (forall k v, In (k, v) post -> sameName tag k = true -> v = JNull) ->
  proj (fst (decodeQuoteMembers (pre ++ (key, JNum (Some f)) :: post) q saved))
  = f.
Proof.
  induction pre as [|[k0 v0] pre IH]; intros key f post q saved tag proj Hin Hk Hp.
  - cbn [app decodeQuoteMembers].
    pose proof (setQuoteField_stores q key f tag proj Hin Hk) as HS.
    destruct (setQuoteField q key (JNum (Some f))) as [q' e]. cbn [fst] in HS.
    rewrite (decodeQuoteMembers_keeps post q' _ tag proj Hin Hp). exact HS.
  - cbn [app decodeQuoteMembers]. destruct (setQuoteField q k0 v0) as [q' e].
    apply (IH key f post q' (saveError saved e) tag proj); assumption.
Qed.

Lemma zeroQuote_fields tag proj :
  In (tag, proj) quoteFields -> proj zeroQuote = 0%float.
Proof.
  intros Hin.
  repeat (destruct Hin as [[= <- <-]|Hin]; [reflexivity|]). destruct Hin.
Qed.

Variable get : string -> httpResult jsonBody.
Variable symbol : string.

(** C10 (as the code has it). On a 2xx response whose body is a JSON
    object, the fetch succeeds exactly when every member naming one of
    c, h, l, o, pc holds a number in range or null. Each of the five
    fields is then 0 when no member gives it a number, and otherwise the
    number of the last member that names it and is not null; so the price
    is 0 when no member gives c a number. Besides a malformed body, a
    well-formed value also fails to decode: an object with a member of
    another type for one of the fields, and any value that is neither an
    object nor null. *)
Theorem fetchQuote_decoding code status :
  200 <= code < 300 ->
  (forall ms,
     get (quoteURL symbol) = Response code status (WellFormed (JObj ms)) ->
     (forallb memberFits ms = true ->
      exists q, snd (fetchQuote get symbol) = inr q
                /\ ((forall key v, In (key, v) ms ->
                       sameName "c" key = true -> v = JNull) ->
                    QuoteResp.Current q = 0%float)
                /\ (forall tag proj,
                      In (tag, proj) quoteFields ->
                      ((forall key v, In (key, v) ms ->
                          sameName tag key = true -> v = JNull) ->
                       proj q = 0%float)
                      /\ (forall pre key f post,
                            ms = pre ++ (key, JNum (Some f)) :: post ->
                            sameName tag key = true ->
                            (forall k v, In (k, v) post ->
                               sameName tag k = true -> v = JNull) ->
                            proj q = f)))
     /\ (forallb memberFits ms = false ->
         exists kind field,
           snd (fetchQuote get symbol) = inl (UnmarshalTypeError kind field)))
  /\ (forall e,
        get (quoteURL symbol) = Response code status (Malformed e) ->
        snd (fetchQuote get symbol) = inl e)
  /\ (forall v,
        get (quoteURL symbol) = Response code status (WellFormed v) ->
        match v with
        | JObj _ => True
        | JNull => snd (fetchQuote get symbol) = inr zeroQuote
        | _ => exists kind,
                 snd (fetchQuote get symbol) = inl (UnmarshalTypeError kind "")
        end).
Proof.
  intros Hc. unfold fetchQuote. cbn [snd]. split; [|split].
  - intros ms Hg. rewrite Hg, (is2xx _ Hc). cbn [decodeQuote].
    pose proof (decodeQuoteMembers_error ms zeroQuote None) as HE.
    pose proof (decodeQuoteMembers_typeError ms zeroQuote None) as HT.
    pose proof (decodeQuoteMembers_Current ms zeroQuote None) as HC.
    assert (forall tag proj,
              In (tag, proj) quoteFields ->
              (forall key v, In (key, v) ms ->
                 sameName tag key = true -> v = JNull) ->
              proj (fst (decodeQuoteMembers ms zeroQuote None)) = 0%float)
      as HK.
    { intros tag proj Hin Hnull.
      rewrite (decodeQuoteMembers_keeps ms zeroQuote None tag proj Hin Hnull).
      apply (zeroQuote_fields tag proj Hin). }
    assert (forall tag proj,
              In (tag, proj) quoteFields ->
              forall pre key f post,
                ms = pre ++ (key, JNum (Some f)) :: post ->
                sameName tag key = true ->
                (forall k v, In (k, v) post ->
                   sameName tag k = true -> v = JNull) ->
                proj (fst (decodeQuoteMembers ms zeroQuote None)) = f)
      as HL.
    { intros tag proj Hin pre key f post Hms Hk Hp. rewrite Hms.
      apply (decodeQuoteMembers_last pre key f post zeroQuote None tag proj);
        assumption. }
    destruct (decodeQuoteMembers ms zeroQuote None) as [q [e|]];
      cbn [fst snd] in *; split; intros Hfit.
    + assert (Some e = None) as HA by (apply HE; auto). discriminate HA.
    + destruct (HT e eq_refl) as [HA|(kind & field & ->)]; [discriminate HA|].
      eauto.
    + exists q. split; [reflexivity|]. split.
      * intros Hnull. apply HC. exact Hnull.
      * intros tag proj Hin. split.
        -- apply (HK tag proj Hin).
        -- apply (HL tag proj Hin).
    + destruct HE as [HE _]. destruct (HE eq_refl) as [_ HA]. congruence.
  - intros e Hg. rewrite Hg, (is2xx _ Hc). reflexivity.
  - intros v Hg. rewrite Hg, (is2xx _ Hc).
    destruct v; cbn [decodeQuote]; eauto.
Qed.

End Quotes.

Lemma fetchQuote_decoding_witness :
  exists q,
    snd (fetchQuote (fun _ => Response 200 "200 OK" quoteBodyNoPrice) "AAPL")
    = inr q
    /\ QuoteResp.Current q = 0%float
    /\ QuoteResp.High q = 190%float
    /\ QuoteResp.Low q = 0%float
    /\ QuoteResp.Open q = 0%float
    /\ QuoteResp.PrevClose q = 0%float.
Proof.
  destruct (fetchQuote_decoding
              (fun _ => Response 200 "200 OK" quoteBodyNoPrice) "AAPL"
              200 "200 OK") as [H _]; [lia|].
  destruct (H [("h", JNum (Some 190%float))] eq_refl) as [Hfit _].
  destruct (Hfit eq_refl) as (q & Hq & Hzero & Hfields).
  assert (forall tag, sameName tag "h" = false ->
            forall key v, In (key, v) [("h", JNum (Some 190%float))] ->
              sameName tag key = true -> v = JNull) as Hno.
  { intros tag Ht key v [[= <- <-]|[]] Hk. congruence. }
  exists q. split; [exact Hq|]. split; [|split; [|split; [|split]]].
  - apply Hzero. apply (Hno "c"). reflexivity.
  - destruct (Hfields "h" QuoteResp.High) as [_ Hlast].
    { right. left. reflexivity. }
    apply (Hlast [] "h" 190%float []); [reflexivity|reflexivity|].
    intros k v [].
  - destruct (Hfields "l" QuoteResp.Low) as [Hz _].
    { right. right. left. reflexivity. }
    apply Hz. apply (Hno "l"). reflexivity.
  - destruct (Hfields "o" QuoteResp.Open) as [Hz _].
    { right. right. right. left. reflexivity. }
    apply Hz. apply (Hno "o"). reflexivity.
  - destruct (Hfields "pc" QuoteResp.PrevClose) as [Hz _].
    { right. right. right. right. left. reflexivity. }
    apply Hz. apply (Hno "pc"). reflexivity.
Defined.

(** A 2xx response with the well-formed body {"c":"abc"} is a decode
    error, not a quote with price 0. *)
Lemma fetchQuote_text_price :
  snd (fetchQuote (fun _ => Response 200 "200 OK" quoteBodyText) "AAPL")
  = inl (UnmarshalTypeError KString "c").
Proof. reflexivity. Qed.

(* ===================================================================== *)
(** * The quote stream *)
(* ===================================================================== *)

Section Ticker.

Variable tk : Ticker.
Hypothesis period_pos : 0 < period tk.

(** After [seen] firings have been received, the next one is received no
    earlier than [seen + 1] periods after the ticker was armed. *)
Lemma recv_not_before (now : Z) (seen : nat) :
  armedAt tk + Z.of_nat seen * period tk <= lastRecv tk ->
  armedAt tk + Z.of_nat (S seen) * period tk <= fst (recv tk now)
  /\ now <= fst (recv tk now).
Proof.
  intros H. unfold recv. cbn [fst].
  assert (Z.of_nat seen <= (lastRecv tk - armedAt tk) / period tk) as Hq.
  { apply Z.div_le_lower_bound; [exact period_pos|]. lia. }
  split; [|lia]. nia.
Qed.

Lemma recv_ticker (now : Z) :
  armedAt (snd (recv tk now)) = armedAt tk
  /\ period (snd (recv tk now)) = period tk
  /\ lastRecv (snd (recv tk now)) = fst (recv tk now).
Proof. unfold recv. cbn. auto. Qed.

End Ticker.

Lemma sentFrom_app a : forall seen b,
  sentFrom seen (a ++ b) = sentFrom seen a ++ sentFrom (seen + count isTick a) b.
Proof.
  induction a as [|e a IH]; intros seen b.
  - simpl. rewrite Nat.add_0_r. reflexivity.
  - destruct e as [l|t d|t u|t|t v [err|]|t| |]; simpl; rewrite IH; unfold count; simpl;
      try reflexivity.
    rewrite Nat.add_succ_r. reflexivity.
Qed.

Lemma tickTimes_app a b : tickTimes (a ++ b) = tickTimes a ++ tickTimes b.
Proof.
  induction a as [|e a IH]; [reflexivity|].
  destruct e; simpl; rewrite IH; reflexivity.
Qed.

Lemma payloads_app a b : payloads (a ++ b) = payloads a ++ payloads b.
Proof.
  induction a as [|e a IH]; [reflexivity|].
  destruct e; simpl; rewrite IH; reflexivity.
Qed.

Section Session.

Variable env : nat -> exchange.
Variable symbol : string.

Lemma sendQuote_fetch_error x clock err :
  snd (fetchQuote (fun _ => reply x) symbol) = inl err ->
  sendQuote symbol x clock
  = ([HttpGet clock (quoteURL symbol)], clock + Z.of_N (fetchTime x), Some err).
Proof.
  intros H. unfold sendQuote.
  destruct (fetchQuote _ symbol) as [url r] eqn:E.
  apply (f_equal fst) in E as Eu. cbn [fst snd] in *. subst. reflexivity.
Qed.

Lemma sendQuote_fetched x clock q :
  snd (fetchQuote (fun _ => reply x) symbol) = inr q ->
  sendQuote symbol x clock
  = ([HttpGet clock (quoteURL symbol);
      SetWriteDeadline (Add (wallAtDeadline x) (5 * Second));
      WriteJSON (clock + Z.of_N (fetchTime x))
        (MapAny {[ "symbol" := VString symbol;
                   "price" := VFloat64 (QuoteResp.Current q);
                   "time" := VInt64 (UnixMilli (wallAtPayload x)) ]})
        (writeErr x)],
     clock + Z.of_N (fetchTime x) + Z.of_N (writeTime x),
     writeErr x).
Proof.
  intros H. unfold sendQuote.
  destruct (fetchQuote _ symbol) as [url r] eqn:E.
  apply (f_equal fst) in E as Eu. cbn [fst snd] in *. subst. reflexivity.
Qed.


(** In the loop, the message after [seen] earlier firings is sent once one
    more firing has been received, no earlier than that many periods
    after the ticker was armed. *)
Lemma tickLoop_sent fuel : forall k tk clock seen,
  0 < period tk ->
  armedAt tk + Z.of_nat seen * period tk <= lastRecv tk ->
  forall n s t,
    sentFrom seen (fst (tickLoop fuel symbol env k tk clock)) !! n
    = Some (s, t) ->
    s = (S seen + n)%nat /\ armedAt tk + Z.of_nat s * period tk <= t.
Proof.
  induction fuel as [|fuel IH]; intros k tk clock seen Hp Hl n s t.
  - simpl. discriminate.
  - cbn [tickLoop].
    destruct (recv_not_before tk Hp clock seen Hl) as [Hfire _].
    destruct (recv_ticker tk clock) as (Ha & Hd & Hr).
    destruct (recv tk clock) as [t0 tk']. cbn [fst snd] in *.
    destruct (snd (fetchQuote (fun _ => reply (env k)) symbol)) as [err|q] eqn:F.
    + rewrite (sendQuote_fetch_error _ _ _ F). simpl. discriminate.
    + rewrite (sendQuote_fetched _ _ _ F).
      destruct (writeErr (env k)) as [e|]; [simpl; discriminate|].
      specialize (IH (S k) tk' (t0 + Z.of_N (fetchTime (env k))
                                  + Z.of_N (writeTime (env k))) (S seen)).
      destruct (tickLoop fuel symbol env (S k) tk' _) as [rest p].
      cbn [fst] in *. simpl sentFrom.
      destruct n as [|n]; simpl.
      * intros [= <- <-]. split; [lia|]. lia.
      * intros Hn. rewrite Ha, Hd, Hr in IH.
        destruct (IH Hp Hfire n s t Hn) as [-> Ht]. split; [lia|exact Ht].
Qed.

(** A firing is received in the loop no earlier than its turn on the
    ticker's grid. *)
Lemma tickLoop_ticks fuel : forall k tk clock seen,
  0 < period tk ->
  armedAt tk + Z.of_nat seen * period tk <= lastRecv tk ->
  forall n t,
    tickTimes (fst (tickLoop fuel symbol env k tk clock)) !! n = Some t ->
    armedAt tk + Z.of_nat (S seen + n) * period tk <= t.
Proof.
  induction fuel as [|fuel IH]; intros k tk clock seen Hp Hl n t.
  - simpl. discriminate.
  - cbn [tickLoop].
    destruct (recv_not_before tk Hp clock seen Hl) as [Hfire _].
    destruct (recv_ticker tk clock) as (Ha & Hd & Hr).
    destruct (recv tk clock) as [t0 tk']. cbn [fst snd] in *.
    destruct (snd (fetchQuote (fun _ => reply (env k)) symbol)) as [err|q] eqn:F.
    + rewrite (sendQuote_fetch_error _ _ _ F).
      destruct n as [|n]; simpl; [|discriminate].
      intros [= <-]. rewrite Nat.add_0_r. exact Hfire.
    + rewrite (sendQuote_fetched _ _ _ F).
      destruct (writeErr (env k)) as [e|].
      * destruct n as [|n]; simpl; [|discriminate].
        intros [= <-]. rewrite Nat.add_0_r. exact Hfire.
      * specialize (IH (S k) tk' (t0 + Z.of_N (fetchTime (env k))
                                    + Z.of_N (writeTime (env k))) (S seen)).
        destruct (tickLoop fuel symbol env (S k) tk' _) as [rest p].
        cbn [fst] in *. destruct n as [|n]; simpl.
        -- intros [= <-]. rewrite Nat.add_0_r. exact Hfire.
        -- intros Hn. rewrite Ha, Hd, Hr in IH.
           specialize (IH Hp Hfire n t Hn).
           replace (S (seen + S n)) with (S (S seen + n)) by lia. exact IH.
Qed.

(** The values written in the loop are the messages of the calls made. *)
Lemma tickLoop_payloads fuel : forall k tk clock n v,
  payloads (fst (tickLoop fuel symbol env k tk clock)) !! n = Some v ->
  exists q,
    snd (fetchQuote (fun _ => reply (env (k + n)%nat)) symbol) = inr q
    /\ v = MapAny {[ "symbol" := VString symbol;
                     "price" := VFloat64 (QuoteResp.Current q);
                     "time" := VInt64 (UnixMilli (wallAtPayload (env (k + n)%nat))) ]}.
Proof.
  induction fuel as [|fuel IH]; intros k tk clock n v.
  - simpl. discriminate.
  - cbn [tickLoop]. destruct (recv tk clock) as [t0 tk'].
    destruct (snd (fetchQuote (fun _ => reply (env k)) symbol)) as [err|q] eqn:F.
    + rewrite (sendQuote_fetch_error _ _ _ F). simpl. discriminate.
    + rewrite (sendQuote_fetched _ _ _ F).
      destruct (writeErr (env k)) as [e|].
      * destruct n as [|n]; simpl; [|discriminate].
        intros [= <-]. rewrite Nat.add_0_r. eauto.
      * specialize (IH (S k) tk' (t0 + Z.of_N (fetchTime (env k))
                                    + Z.of_N (writeTime (env k)))).
        destruct (tickLoop fuel symbol env (S k) tk' _) as [rest p].
        cbn [fst] in *. destruct n as [|n]; simpl.
        -- intros [= <-]. rewrite Nat.add_0_r. eauto.
        -- intros Hn. rewrite Nat.add_succ_r. apply (IH n v Hn).
Qed.

(** The loop returns at the first call that fails, having made that call
    and the ones before it once each. *)
Lemma tickLoop_failure m : forall fuel k tk clock err,
  (forall i, (i < m)%nat -> sendSucceeds symbol (env (k + i)%nat)) ->
  sendFails symbol (env (k + m)%nat) err ->
  (m < fuel)%nat ->
  exists body,
    tickLoop fuel symbol env k tk clock
    = (body ++ [Log {| prefix := "ws send:"; cause := err |}], Returned)
    /\ count isLog body = 0%nat /\ count isStop body = 0%nat
    /\ count isClose body = 0%nat /\ count isArmed body = 0%nat
    /\ count isGet body = S m /\ count isSent body = m
    /\ count isTick body = S m.
Proof.
  induction m as [|m IH]; intros fuel k tk clock err Hok Hfail Hfuel;
    (destruct fuel as [|fuel]; [lia|]); cbn [tickLoop];
    destruct (recv tk clock) as [t0 tk'].
  - rewrite Nat.add_0_r in Hfail.
    destruct Hfail as [e F|q e F W].
    + rewrite (sendQuote_fetch_error _ _ _ F).
      exists [Tick t0; HttpGet t0 (quoteURL symbol)]. repeat split.
    + rewrite (sendQuote_fetched _ _ _ F), W.
      eexists [Tick t0; HttpGet t0 _; SetWriteDeadline _; WriteJSON _ _ (Some e)].
      repeat split.
  - destruct (Hok 0%nat ltac:(lia)) as (q & F & W). rewrite Nat.add_0_r in F, W.
    rewrite (sendQuote_fetched _ _ _ F), W.
    destruct (IH fuel (S k) tk' (t0 + Z.of_N (fetchTime (env k))
                                   + Z.of_N (writeTime (env k))) err)
      as (body & -> & H1 & H2 & H3 & H4 & H5 & H6 & H7).
    + intros i Hi. rewrite Nat.add_succ_comm. apply Hok. lia.
    + rewrite Nat.add_succ_comm. exact Hfail.
    + lia.
    + eexists (Tick t0 :: HttpGet t0 _ :: SetWriteDeadline _
                 :: WriteJSON _ _ None :: body).
      split; [reflexivity|].
      unfold count in *. simpl. rewrite H1, H2, H3, H4, H5, H6, H7. repeat split.
Qed.

End Session.

Lemma sentFrom_deferred seen p :
  sentFrom seen (match p with
                 | Returned => [TickerStop; ConnClose]
                 | Blocked => []
                 end) = [].
Proof. destruct p; reflexivity. Qed.

Lemma tickTimes_deferred p :
  tickTimes (match p with
             | Returned => [TickerStop; ConnClose]
             | Blocked => []
             end) = [].
Proof. destruct p; reflexivity. Qed.

Lemma payloads_deferred p :
  payloads (match p with
            | Returned => [TickerStop; ConnClose]
            | Blocked => []
            end) = [].
Proof. destruct p; reflexivity. Qed.

Lemma livePollInterval_pos : 0 < livePollInterval.
Proof. reflexivity. Qed.

(** C1 (as the code has it). The ticker is armed first, with a period of
    5 s, and the first fetch starts right after, not before. The n-th
    message of a session (counting from 0) is sent once exactly n firings of
    the ticker have been received: one message goes out before any firing
    is processed, and each later one comes from a firing of its own. The
    k-th firing is processed no earlier than k periods after the ticker
    was armed, and so is the message that comes from it. *)
Theorem handleWS_cadence env start fuel query :
  let tr := fst (handleWS None env start fuel query) in
  tr !! 0%nat = Some (TickerArmed start (5 * Second))
  /\ tr !! 1%nat = Some (HttpGet start (quoteURL (symbolOf query)))
  /\ (forall n seen t,
        sent tr !! n = Some (seen, t) ->
        seen = n /\ start + Z.of_nat n * (5 * Second) <= t)
  /\ (forall k t,
        tickTimes tr !! k = Some t ->
        start + Z.of_nat (S k) * (5 * Second) <= t)
  /\ (count isTick tr <> 0%nat -> exists t, sent tr !! 0%nat = Some (0%nat, t)).
Proof.
  intros tr. subst tr. unfold handleWS. set (symbol := symbolOf query).
  destruct (snd (fetchQuote (fun _ => reply (env 0%nat)) symbol))
    as [err|q] eqn:F.
  - rewrite (sendQuote_fetch_error _ _ _ _ F). cbn.
    repeat split; try discriminate.
    intros H. exfalso. apply H. reflexivity.
  - rewrite (sendQuote_fetched _ _ _ _ F).
    destruct (writeErr (env 0%nat)) as [e|].
    + cbn. repeat split; try discriminate.
      intros H. exfalso. apply H. reflexivity.
    + pose proof (tickLoop_sent env symbol fuel 1
                    (NewTicker start livePollInterval)
                    (start + Z.of_N (fetchTime (env 0%nat))
                     + Z.of_N (writeTime (env 0%nat))) 0
                    livePollInterval_pos) as HL.
      pose proof (tickLoop_ticks env symbol fuel 1
                    (NewTicker start livePollInterval)
                    (start + Z.of_N (fetchTime (env 0%nat))
                     + Z.of_N (writeTime (env 0%nat))) 0
                    livePollInterval_pos) as HT.
      destruct (tickLoop fuel symbol env 1 _ _) as [rest p].
      cbn [fst NewTicker armedAt period lastRecv] in *.
      split; [reflexivity|]. split; [reflexivity|].
      unfold sent. cbn [app sentFrom tickTimes].
      rewrite sentFrom_app, sentFrom_deferred, app_nil_r.
      rewrite tickTimes_app, tickTimes_deferred, app_nil_r.
      split; [|split; [|intros _; eexists; reflexivity]].
      * intros n seen t. destruct n as [|n]; simpl.
        -- intros [= <- <-]. split; [reflexivity|]. lia.
        -- intros Hn. destruct (HL ltac:(lia) n seen t Hn) as [-> Ht].
           split; [reflexivity|exact Ht].
      * intros k t Hk. apply (HT ltac:(lia) k t Hk).
Qed.

(** C2. When a fetch or a write of a session fails, the first one or a
    later one, [handleWS] logs the error, stops the ticker, closes the
    connection and returns: the connection is closed once, the ticker is
    stopped once, the failed call is not made again and nothing is
    written after it. *)
Theorem handleWS_failure env start fuel query n err :
  let symbol := symbolOf query in
  (forall i, (i < n)%nat -> sendSucceeds symbol (env i)) ->
  sendFails symbol (env n) err ->
  (n <= fuel)%nat ->
  exists body,
    handleWS None env start fuel query
    = (body ++ [Log {| prefix := match n with
                                  | O => "ws first send:"
                                  | S _ => "ws send:"
                                  end;
                       cause := err |};
                TickerStop; ConnClose],
       Returned)
    /\ count isLog body = 0%nat /\ count isStop body = 0%nat
    /\ count isClose body = 0%nat
    /\ count isGet body = S n /\ count isSent body = n.
Proof.
  intros symbol Hok Hfail Hfuel. unfold handleWS. fold symbol.
  destruct n as [|m].
  - destruct Hfail as [e F|q e F W].
    + rewrite (sendQuote_fetch_error _ _ _ _ F).
      exists [TickerArmed start livePollInterval; HttpGet start (quoteURL symbol)].
      repeat split.
    + rewrite (sendQuote_fetched _ _ _ _ F), W.
      eexists [TickerArmed start livePollInterval; HttpGet start _;
               SetWriteDeadline _; WriteJSON _ _ (Some e)].
      repeat split.
  - destruct (Hok 0%nat ltac:(lia)) as (q & F & W).
    rewrite (sendQuote_fetched _ _ _ _ F), W.
    destruct (tickLoop_failure env symbol m fuel 1
                (NewTicker start livePollInterval)
                (start + Z.of_N (fetchTime (env 0%nat))
                 + Z.of_N (writeTime (env 0%nat))) err)
      as (body & -> & H1 & H2 & H3 & _ & H5 & H6 & _).
    + intros i Hi. apply Hok. lia.
    + exact Hfail.
    + lia.
    + eexists (TickerArmed start livePollInterval :: HttpGet start _
                 :: SetWriteDeadline _ :: WriteJSON _ _ None :: body).
      split.
      * cbn [app]. rewrite <- app_assoc. reflexivity.
      * unfold count in *. simpl. rewrite H1, H2, H3, H5, H6. repeat split.
Qed.

(** ** The quote stream on the sample exchanges *)

(** The ticker is armed before the first fetch, not after the first
    message; and with a first fetch of 4 s the second message follows the
    first by 1.1 s. *)
Lemma handleWS_armed_first :
  let tr := fst (handleWS None slowStart 0 1 ∅) in
  firstIndex isArmed tr = Some 0%nat
  /\ firstIndex isGet tr = Some 1%nat
  /\ firstIndex isSent tr = Some 3%nat
  /\ sentBeforeArmed tr = false
  /\ tickTimes tr = [5000000000]
  /\ sent tr = [(0%nat, 4000000000); (1%nat, 5100000000)]
  /\ spacedBy livePollInterval (map snd (sent tr)) = false.
Proof. vm_compute. repeat split. Qed.

Lemma handleWS_failure_witness :
  exists body,
    handleWS None thirdRefused 0 5 ∅
    = (body ++ [Log {| prefix := "ws send:";
                       cause := ErrorString "quote status 429 Too Many Requests" |};
                TickerStop; ConnClose],
       Returned)
    /\ count isLog body = 0%nat /\ count isStop body = 0%nat
    /\ count isClose body = 0%nat
    /\ count isGet body = 3%nat /\ count isSent body = 2%nat.
Proof.
  apply (handleWS_failure thirdRefused 0 5 ∅ 2
           (ErrorString "quote status 429 Too Many Requests")).
  - intros i Hi. destruct i as [|[|i]]; [| |lia]; eexists; split; reflexivity.
  - apply fetchFails. reflexivity.
  - lia.
Defined.

(* ===================================================================== *)
(** * More on the candle endpoint *)
(* ===================================================================== *)

Section CandlesMore.

Variable get : string -> httpResult (error + candleResp).
Variables now1 now2 : Time.

(** X1. Every request ends in one of three ways: 400 without asking
    Finnhub and without a log line, when the symbol is missing; 500 after
    one request to Finnhub that failed, with one log line; 200 after one
    request to Finnhub that gave a result, without a log line. The answer
    is always declared as JSON. *)
Theorem handleCandles_outcomes query :
  let s := handleCandles get now1 now2 query in
  let r := snd (fetchCandles get now1 now2 (Get query "symbol")
                  (queryMinutes (Get query "minutes"))) in
  ContentType (written s) = "application/json"
  /\ ((Get query "symbol" = ""
       /\ Status (written s) = 400 /\ requested s = [] /\ logged s = [])
      \/ (Get query "symbol" <> ""
          /\ exists err, r = inl err
             /\ Status (written s) = 500
             /\ requested s = [candlesRequest now1 now2 query]
             /\ logged s = [ {| prefix := "server error:"; cause := err |} ])
      \/ (Get query "symbol" <> ""
          /\ exists c, r = inr c
             /\ Status (written s) = 200
             /\ requested s = [candlesRequest now1 now2 query]
             /\ logged s = [])).
Proof.
  intros s r. subst s r.
  destruct (String.eqb_spec (Get query "symbol") "") as [He|Hs].
  - unfold handleCandles. rewrite He. cbn. auto 10.
  - rewrite (handleCandles_fetch get now1 now2 _ Hs).
    destruct (snd (fetchCandles _ _ _ _ _)) as [err|c].
    + split; [reflexivity|]. right. left. split; [exact Hs|]. exists err. auto.
    + destruct (negb _ || _); (split; [reflexivity|]); right; right;
        (split; [exact Hs|]); exists c; auto.
Qed.

(** X2. The object answered has one of three sets of keys: [error] alone
    on 400 and 500; on 200 either symbol, status and candles, or symbol,
    status and the six sequences, never a mix of the two. The six
    sequences are answered exactly when the upstream status is "ok" and
    there are timestamps. *)
Theorem handleCandles_body_keys query :
  let s := handleCandles get now1 now2 query in
  let r := snd (fetchCandles get now1 now2 (Get query "symbol")
                  (queryMinutes (Get query "minutes"))) in
  (Status (written s) <> 200 /\ bodyKeys (written s) = {[ "error" ]})
  \/ (exists c, r = inr c /\ Status (written s) = 200
        /\ (CandleResp.S c <> "ok" \/ len (CandleResp.Time c) = 0)
        /\ bodyKeys (written s) = {[ "symbol"; "status"; "candles" ]})
  \/ (exists c, r = inr c /\ Status (written s) = 200
        /\ CandleResp.S c = "ok" /\ len (CandleResp.Time c) <> 0
        /\ bodyKeys (written s)
           = {[ "symbol"; "status"; "t"; "o"; "h"; "l"; "c"; "v" ]}).
Proof.
  intros s r. subst s r.
  destruct (String.eqb_spec (Get query "symbol") "") as [He|Hs].
  - left. unfold handleCandles. rewrite He. cbn. split; [discriminate|].
    unfold bodyKeys. cbn. apply dom_singleton_L.
  - rewrite (handleCandles_fetch get now1 now2 _ Hs).
    destruct (snd (fetchCandles _ _ _ _ _)) as [err|c].
    + left. cbn. split; [discriminate|].
      unfold bodyKeys. cbn. apply dom_singleton_L.
    + right.
      destruct (String.eqb_spec (CandleResp.S c) "ok") as [Hok|Hno];
        [destruct (Z.eqb_spec (len (CandleResp.Time c)) 0) as [Hz|Hnz]|];
        cbn [negb orb].
      * left. exists c. repeat split; auto;
          unfold bodyKeys; cbn; rewrite !dom_insert_L, dom_singleton_L; set_solver.
      * right. exists c. repeat split; auto;
          unfold bodyKeys; cbn; rewrite !dom_insert_L, dom_singleton_L; set_solver.
      * left. exists c. repeat split; auto;
          unfold bodyKeys; cbn; rewrite !dom_insert_L, dom_singleton_L; set_solver.
Qed.

(** X3. Whatever [minutes] says, a request with a symbol asks Finnhub
    for a window of 1 to 5000 minutes: the default of [fetchCandles] and
    the wrap-around of [time.Duration] are out of the handler's reach. *)
Theorem handleCandles_window_in_range query :
  Get query "symbol" <> "" ->
  let m := queryMinutes (Get query "minutes") in
  1 <= m <= 5000
  /\ mul64 (neg64 m) Minute = - (m * Minute)
  /\ requested (handleCandles get now1 now2 query)
     = [candleURL (Get query "symbol") (Unix now2 - 60 * m) (Unix now1)].
Proof.
  intros Hs m. subst m.
  pose proof (queryMinutes_range (Get query "minutes")) as Hr.
  split; [lia|]. split.
  - rewrite minutes_duration by (unfold maxMinutes; lia).
    unfold Minute. lia.
  - rewrite (handleCandles_requested get now1 now2 _ Hs).
    rewrite candlesRequest_window. reflexivity.
Qed.

(** X4. [fetchCandles] gives a result exactly when Finnhub answers its
    request with a 2xx status and a body that decodes, and the result is
    what the body decodes to. *)
Theorem fetchCandles_data symbol m c :
  snd (fetchCandles get now1 now2 symbol m) = inr c
  <-> exists code status,
        get (fst (fetchCandles get now1 now2 symbol m))
        = Response code status (inr c)
        /\ 200 <= code < 300.
Proof.
  rewrite fetchCandles_result.
  destruct (get (fst (fetchCandles get now1 now2 symbol m)))
    as [err|code status body]; split.
  - discriminate.
  - intros (code & status & H & _). discriminate H.
  - destruct (Z.ltb_spec code 200); [discriminate|].
    destruct (Z.leb_spec 300 code); [discriminate|].
    cbn [orb]. intros ->. exists code, status. split; [reflexivity|lia].
  - intros (code' & status' & [= -> -> ->] & Hc).
    rewrite (is2xx _ Hc). reflexivity.
Qed.

(** X5. A window too long for a [time.Duration] wraps around: [from]
    then falls at or after the second clock reading, so the window asked
    of Finnhub does not reach back at all. *)
Theorem candleWindow_wraps m :
  maxMinutes < m <= maxWrappedMinutes ->
  fst (candleWindow m now1 now2) = Unix (now2 + (2 ^ 64 - m * Minute))
  /\ Unix now2 <= fst (candleWindow m now1 now2).
Proof.
  unfold maxMinutes, maxWrappedMinutes. intros Hm.
  assert (mul64 (neg64 m) Minute = 2 ^ 64 - m * Minute) as HW.
  { unfold mul64, neg64.
    rewrite (wrap64_small (- m)) by (unfold minInt64, maxInt64; lia).
    unfold wrap64, Minute, Second, Millisecond.
    replace (- m * (60 * (1000 * 1000000)) + 2 ^ 63)
      with ((2 ^ 64 - m * (60 * (1000 * 1000000)) + 2 ^ 63)
            + (-1) * 2 ^ 64) by lia.
    rewrite Z.mod_add by lia. rewrite Z.mod_small; lia. }
  unfold candleWindow. cbn [fst].
  destruct (Z.leb_spec m 0); [lia|].
  rewrite HW. unfold Add. split; [reflexivity|].
  unfold Unix. apply Z.div_le_mono; [reflexivity|].
  unfold Minute, Second, Millisecond. lia.
Qed.

End CandlesMore.

Lemma handleCandles_window_in_range_witness :
  1 <= queryMinutes (Get tslaBadMinutes "minutes") <= 5000
  /\ requested (handleCandles (answering okBars) clockA clockB tslaBadMinutes)
     = [candleURL "TSLA" (Unix clockB - 60 * 60) (Unix clockA)].
Proof.
  destruct (handleCandles_window_in_range (answering okBars) clockA clockB
              tslaBadMinutes) as (H1 & _ & H3).
  - vm_compute. discriminate.
  - split; [exact H1|exact H3].
Defined.

Lemma candleWindow_wraps_witness :
  Unix clockA <= fst (candleWindow 200000000 clockA clockA).
Proof.
  apply (candleWindow_wraps clockA clockA 200000000).
  unfold maxMinutes, maxWrappedMinutes. lia.
Defined.

(* ===================================================================== *)
(** * More on the quote fetch *)
(* ===================================================================== *)

Section QuotesMore.

Lemma setQuoteField_skip q key v :
  namesQuoteField key = false -> setQuoteField q key v = (q, None).
Proof.
  destruct q as [c h l o pc]. unfold namesQuoteField, setQuoteField.
  destruct (sameName "c" key), (sameName "h" key), (sameName "l" key),
    (sameName "o" key), (sameName "pc" key); cbn [orb];
    intros H; try discriminate H; reflexivity.
Qed.

Lemma saveError_nothing saved : saveError saved None = saved.
Proof. destruct saved; reflexivity. Qed.

Lemma decodeQuoteMembers_fieldMembers ms : forall q saved,
  decodeQuoteMembers ms q saved = decodeQuoteMembers (fieldMembers ms) q saved.
Proof.
  induction ms as [|[key v] rest IH]; intros q saved; [reflexivity|].
  unfold fieldMembers. cbn [List.filter fst].
  destruct (namesQuoteField key) eqn:Hn.
  - cbn [decodeQuoteMembers]. destruct (setQuoteField q key v) as [q' e].
    apply IH.
  - cbn [decodeQuoteMembers]. rewrite (setQuoteField_skip _ _ _ Hn).
    rewrite saveError_nothing. apply IH.
Qed.

Lemma decodeQuoteMembers_app a : forall b q saved,
  decodeQuoteMembers (a ++ b) q saved
  = decodeQuoteMembers b (fst (decodeQuoteMembers a q saved))
                         (snd (decodeQuoteMembers a q saved)).
Proof.
  induction a as [|[key v] rest IH]; intros b q saved; [reflexivity|].
  cbn [app decodeQuoteMembers]. destruct (setQuoteField q key v) as [q' e].
  apply IH.
Qed.

Lemma setQuoteField_price q key f :
  sameName "c" key = true ->
  QuoteResp.Current (fst (setQuoteField q key (JNum (Some f)))) = f
  /\ snd (setQuoteField q key (JNum (Some f))) = None.
Proof.
  destruct q as [c h l o pc]. unfold setQuoteField. intros ->.
  split; reflexivity.
Qed.

Variable get : string -> httpResult jsonBody.
Variable symbol : string.

(** X6. Members of the quote object that name none of c, h, l, o, pc
    (Finnhub's d, dp and t, say) do not matter to the fetch, whatever
    they hold: the outcome is that of the object without them. *)
Theorem fetchQuote_ignores_unknown code status ms :
  get (quoteURL symbol) = Response code status (WellFormed (JObj ms)) ->
  snd (fetchQuote get symbol)
  = snd (fetchQuote
           (fun _ => Response code status (WellFormed (JObj (fieldMembers ms))))
           symbol).
Proof.
  intros Hg. unfold fetchQuote. cbn [snd]. rewrite Hg.
  destruct ((code <? 200) || (300 <=? code)); [reflexivity|].
  cbn [decodeQuote]. rewrite decodeQuoteMembers_fieldMembers. reflexivity.
Qed.

(** X7. The price of a quote is the number held by the last member
    named c (in either letter case) that is not null, provided the other
    members fit their fields. *)
Theorem fetchQuote_price code status pre key f post :
  200 <= code < 300 ->
  get (quoteURL symbol)
  = Response code status
      (WellFormed (JObj (pre ++ (key, JNum (Some f)) :: post))) ->
  sameName "c" key = true ->
  (forall k v, In (k, v) post -> sameName "c" k = true -> v = JNull) ->
  forallb memberFits (pre ++ post) = true ->
  exists q, snd (fetchQuote get symbol) = inr q /\ QuoteResp.Current q = f.
Proof.
  intros Hc Hg Hk Hpost Hfit. unfold fetchQuote. cbn [snd].
  rewrite Hg, (is2xx _ Hc). cbn [decodeQuote].
  rewrite forallb_app, andb_true_iff in Hfit. destruct Hfit as [Hpre Hfp].
  rewrite decodeQuoteMembers_app.
  pose proof (decodeQuoteMembers_error pre zeroQuote None) as HE.
  destruct (decodeQuoteMembers pre zeroQuote None) as [q1 s1].
  cbn [fst snd] in *.
  assert (s1 = None) as -> by (apply HE; auto).
  cbn [decodeQuoteMembers].
  destruct (setQuoteField_price q1 key f Hk) as [Hf He].
  destruct (setQuoteField q1 key (JNum (Some f))) as [q2 e2].
  cbn [fst snd] in *. subst e2. cbn [saveError].
  pose proof (decodeQuoteMembers_error post q2 None) as HE2.
  pose proof (decodeQuoteMembers_Current post q2 None Hpost) as HC.
  destruct (decodeQuoteMembers post q2 None) as [q3 s3].
  cbn [fst snd] in *.
  assert (s3 = None) as -> by (apply HE2; auto).
  exists q3. split; [reflexivity|]. rewrite HC. exact Hf.
Qed.

(** X14. [fetchQuote] gives a quote exactly when Finnhub answers its
    request with a 2xx status and a body that decodes without error, and
    the quote is what the body decodes to over the zero quote. *)
Theorem fetchQuote_data q :
  snd (fetchQuote get symbol) = inr q
  <-> exists code status body,
        get (quoteURL symbol) = Response code status body
        /\ 200 <= code < 300
        /\ decodeQuote body zeroQuote = (q, None).
Proof.
  unfold fetchQuote. cbn [snd].
  destruct (get (quoteURL symbol)) as [err|code status body]; split.
  - discriminate.
  - intros (code & status & body & H & _). discriminate H.
  - destruct (Z.ltb_spec code 200); [discriminate|].
    destruct (Z.leb_spec 300 code); [discriminate|]. cbn [orb].
    destruct (decodeQuote body zeroQuote) as [q' [e|]] eqn:D; [discriminate|].
    intros [= ->]. exists code, status, body. repeat split; [lia|lia|exact D].
  - intros (code' & status' & body' & [= -> -> ->] & Hc & D).
    rewrite (is2xx _ Hc), D. reflexivity.
Qed.

End QuotesMore.

Lemma fetchQuote_ignores_unknown_witness :
  snd (fetchQuote (fun _ => Response 200 "200 OK" (WellFormed (JObj finnhubQuote)))
         "AAPL")
  = snd (fetchQuote
           (fun _ => Response 200 "200 OK"
                       (WellFormed (JObj (fieldMembers finnhubQuote))))
           "AAPL")
  /\ length (fieldMembers finnhubQuote) = 5%nat.
Proof.
  split; [|reflexivity].
  apply (fetchQuote_ignores_unknown
           (fun _ => Response 200 "200 OK" (WellFormed (JObj finnhubQuote)))
           "AAPL" 200 "200 OK" finnhubQuote).
  reflexivity.
Defined.

Lemma fetchQuote_price_witness :
  exists q,
    snd (fetchQuote
           (fun _ => Response 200 "200 OK" (WellFormed (JObj finnhubQuote)))
           "AAPL") = inr q
    /\ QuoteResp.Current q = 189.5%float.
Proof.
  apply (fetchQuote_price
           (fun _ => Response 200 "200 OK" (WellFormed (JObj finnhubQuote)))
           "AAPL" 200 "200 OK" [] "c" 189.5%float (tl finnhubQuote)).
  - lia.
  - reflexivity.
  - reflexivity.
  - intros k v Hin Hk. vm_compute in Hin.
    repeat (destruct Hin as [[= <- <-]|Hin]; [vm_compute in Hk; discriminate Hk|]).
    destruct Hin.
  - reflexivity.
Defined.

(* ===================================================================== *)
(** * More on the quote stream *)
(* ===================================================================== *)

Section SessionMore.

Variable env : nat -> exchange.
Variable symbol : string.

Lemma tickLoop_run fuel : forall k tk clock,
  loopRun symbol env k tk clock
    (fst (tickLoop fuel symbol env k tk clock))
    (snd (tickLoop fuel symbol env k tk clock)).
Proof.
  induction fuel as [|fuel IH]; intros k tk clock; [apply loopBlocked|].
  cbn [tickLoop].
  pose proof (loopFetchFails symbol env k tk clock) as HF.
  pose proof (loopWriteFails symbol env k tk clock) as HW.
  pose proof (loopSent symbol env k tk clock) as HS.
  specialize (IH (S k) (snd (recv tk clock))
                (fst (recv tk clock) + Z.of_N (fetchTime (env k))
                 + Z.of_N (writeTime (env k)))).
  destruct (recv tk clock) as [t0 tk']. cbn [fst snd] in *.
  destruct (snd (fetchQuote (fun _ => reply (env k)) symbol)) as [err|q] eqn:F.
  - rewrite (sendQuote_fetch_error _ _ _ _ F). apply HF. reflexivity.
  - rewrite (sendQuote_fetched _ _ _ _ F).
    destruct (writeErr (env k)) as [e|] eqn:W.
    + specialize (HW q e eq_refl eq_refl). unfold sendEvents in HW.
      rewrite W in HW. exact HW.
    + destruct (tickLoop fuel symbol env (S k) tk' _) as [rest p].
      cbn [fst snd] in *.
      specialize (HS q rest p eq_refl eq_refl IH). unfold sendEvents in HS.
      rewrite W in HS. exact HS.
Qed.

End SessionMore.

(** The three ways a session that was upgraded goes: its first fetch
    fails, its first write fails, or its first message is sent and the
    loop is entered. *)
Lemma handleWS_run env start fuel query :
  let symbol := symbolOf query in
  let x := env 0%nat in
  let clock := start + Z.of_N (fetchTime x) + Z.of_N (writeTime x) in
  let loop := tickLoop fuel symbol env 1 (NewTicker start livePollInterval)
                clock in
  (exists err,
     snd (fetchQuote (fun _ => reply x) symbol) = inl err
     /\ handleWS None env start fuel query
        = ([TickerArmed start livePollInterval;
            HttpGet start (quoteURL symbol);
            Log {| prefix := "ws first send:"; cause := err |};
            TickerStop; ConnClose],
           Returned))
  \/ (exists q err,
        snd (fetchQuote (fun _ => reply x) symbol) = inr q
        /\ writeErr x = Some err
        /\ handleWS None env start fuel query
           = (TickerArmed start livePollInterval
                :: sendEvents symbol q x start
                ++ [Log {| prefix := "ws first send:"; cause := err |};
                    TickerStop; ConnClose],
              Returned))
  \/ (exists q,
        snd (fetchQuote (fun _ => reply x) symbol) = inr q
        /\ writeErr x = None
        /\ handleWS None env start fuel query
           = (TickerArmed start livePollInterval
                :: sendEvents symbol q x start
                ++ fst loop
                ++ match snd loop with
                   | Returned => [TickerStop; ConnClose]
                   | Blocked => []
                   end,
              snd loop)).
Proof.
  intros symbol x clock loop. subst x clock loop. unfold handleWS. fold symbol.
  destruct (snd (fetchQuote (fun _ => reply (env 0%nat)) symbol))
    as [err|q] eqn:F.
  - left. exists err. rewrite (sendQuote_fetch_error _ _ _ _ F). auto.
  - right. rewrite (sendQuote_fetched _ _ _ _ F). unfold sendEvents.
    destruct (writeErr (env 0%nat)) as [e|] eqn:W.
    + left. exists q, e. auto.
    + right. exists q. split; [reflexivity|]. split; [reflexivity|].
      destruct (tickLoop fuel symbol env 1 _ _) as [rest p]. cbn [fst snd].
      reflexivity.
Qed.

Lemma count_app p a b : count p (a ++ b) = (count p a + count p b)%nat.
Proof. unfold count. rewrite List.filter_app, length_app. reflexivity. Qed.

Lemma quiet_app a b : quiet (a ++ b) = quiet a && quiet b.
Proof. apply forallb_app. Qed.

Section Lifetime.

Variable env : nat -> exchange.
Variable symbol : string.

Lemma sendEvents_quiet q x t : quiet (sendEvents symbol q x t) = true.
Proof. reflexivity. Qed.

(** The loop returns only after a log line, and does nothing else of the
    kind. *)
Lemma loopRun_release k tk clock evs p :
  loopRun symbol env k tk clock evs p ->
  match p with
  | Blocked => quiet evs = true
  | Returned => exists body l, evs = body ++ [Log l] /\ quiet body = true
  end.
Proof.
  induction 1 as [k tk clock|k tk clock err F|k tk clock q err F W
                  |k tk clock q rest p F W HR IH].
  - reflexivity.
  - eexists [_; _], _. split; reflexivity.
  - eexists (_ :: sendEvents symbol q (env k) _), _. split; reflexivity.
  - destruct p.
    + destruct IH as (body & l & -> & Hq).
      exists (Tick (fst (recv tk clock))
                :: sendEvents symbol q (env k) (fst (recv tk clock)) ++ body), l.
      split; [reflexivity|].
      change (quiet (sendEvents symbol q (env k) (fst (recv tk clock)) ++ body)
              = true).
      rewrite quiet_app, Hq. reflexivity.
    + change (quiet (sendEvents symbol q (env k) (fst (recv tk clock)) ++ rest)
              = true).
      rewrite quiet_app, IH. reflexivity.
Qed.

(** The loop goes on as long as every fetch and every write succeeds. *)
Lemma tickLoop_steady fuel : forall k tk clock,
  (forall i, (i < fuel)%nat -> sendSucceeds symbol (env (k + i)%nat)) ->
  snd (tickLoop fuel symbol env k tk clock) = Blocked
  /\ count isSent (fst (tickLoop fuel symbol env k tk clock)) = fuel
  /\ count isTick (fst (tickLoop fuel symbol env k tk clock)) = fuel.
Proof.
  induction fuel as [|fuel IH]; intros k tk clock Hok; [repeat split|].
  cbn [tickLoop]. destruct (recv tk clock) as [t0 tk'].
  destruct (Hok 0%nat ltac:(lia)) as (q & F & W). rewrite Nat.add_0_r in F, W.
  rewrite (sendQuote_fetched _ _ _ _ F), W.
  destruct (IH (S k) tk' (t0 + Z.of_N (fetchTime (env k))
                          + Z.of_N (writeTime (env k)))) as (Hp & Hs & Ht).
  { intros i Hi. rewrite Nat.add_succ_comm. apply Hok. lia. }
  destruct (tickLoop fuel symbol env (S k) tk' _) as [rest p].
  cbn [fst snd] in *. split; [exact Hp|].
  unfold count in *. cbn. rewrite Hs, Ht. split; reflexivity.
Qed.

Lemma tickLoop_blocked fuel : forall k tk clock,
  snd (tickLoop fuel symbol env k tk clock) = Blocked ->
  forall i, (i < fuel)%nat -> sendSucceeds symbol (env (k + i)%nat).
Proof.
  induction fuel as [|fuel IH]; intros k tk clock Hb i Hi; [lia|].
  cbn [tickLoop] in Hb. destruct (recv tk clock) as [t0 tk'].
  destruct (snd (fetchQuote (fun _ => reply (env k)) symbol)) as [err|q] eqn:F.
  - rewrite (sendQuote_fetch_error _ _ _ _ F) in Hb. discriminate Hb.
  - rewrite (sendQuote_fetched _ _ _ _ F) in Hb.
    destruct (writeErr (env k)) as [e|] eqn:W; [discriminate Hb|].
    specialize (IH (S k) tk' (t0 + Z.of_N (fetchTime (env k))
                              + Z.of_N (writeTime (env k)))).
    destruct (tickLoop fuel symbol env (S k) tk' _) as [rest p].
    cbn [snd] in *. destruct i as [|i].
    + rewrite Nat.add_0_r. exists q. auto.
    + rewrite <- Nat.add_succ_comm. apply (IH Hb). lia.
Qed.

End Lifetime.

(** X8. A session that was upgraded is still running after [fuel]
    firings exactly when its first [fuel + 1] fetches and writes all
    succeeded; it has then sent [fuel + 1] messages, one before the
    first firing and one for each firing, and has neither logged, nor
    stopped its ticker, nor closed its connection. *)
Theorem handleWS_running env start fuel query :
  let run := handleWS None env start fuel query in
  (snd run = Blocked
   <-> forall i, (i <= fuel)%nat -> sendSucceeds (symbolOf query) (env i))
  /\ (snd run = Blocked ->
      count isSent (fst run) = S fuel /\ count isTick (fst run) = fuel
      /\ quiet (fst run) = true).
Proof.
  intros run. subst run.
  pose proof (tickLoop_steady env (symbolOf query) fuel 1
                (NewTicker start livePollInterval)
                (start + Z.of_N (fetchTime (env 0%nat))
                 + Z.of_N (writeTime (env 0%nat)))) as HS.
  pose proof (tickLoop_blocked env (symbolOf query) fuel 1
                (NewTicker start livePollInterval)
                (start + Z.of_N (fetchTime (env 0%nat))
                 + Z.of_N (writeTime (env 0%nat)))) as HB.
  pose proof (tickLoop_run env (symbolOf query) fuel 1
                (NewTicker start livePollInterval)
                (start + Z.of_N (fetchTime (env 0%nat))
                 + Z.of_N (writeTime (env 0%nat)))) as HR.
  apply loopRun_release in HR.
  destruct (handleWS_run env start fuel query)
    as [(err & F & ->)|[(q & err & F & W & ->)|(q & F & W & ->)]]; cbn [fst snd].
  - split; [split; [discriminate|]|discriminate].
    intros Hok. destruct (Hok 0%nat ltac:(lia)) as (q & F' & _). congruence.
  - split; [split; [discriminate|]|discriminate].
    intros Hok. destruct (Hok 0%nat ltac:(lia)) as (q' & _ & W'). congruence.
  - assert ((forall i, (i <= fuel)%nat -> sendSucceeds (symbolOf query) (env i))
            -> forall i, (i < fuel)%nat ->
               sendSucceeds (symbolOf query) (env (1 + i)%nat)) as Hshift.
    { intros Hok i Hi. apply Hok. lia. }
    split; [split|].
    + intros Hb i Hi. destruct i as [|i]; [exists q; auto|].
      apply (HB Hb i). lia.
    + intros Hok. apply (HS (Hshift Hok)).
    + intros Hb. destruct (HS (HB Hb)) as (_ & Hs & Ht).
      rewrite Hb in *. rewrite app_nil_r.
      change (TickerArmed start livePollInterval
                :: sendEvents (symbolOf query) q (env 0%nat) start
                ++ fst (tickLoop fuel (symbolOf query) env 1
                          (NewTicker start livePollInterval)
                          (start + Z.of_N (fetchTime (env 0%nat))
                           + Z.of_N (writeTime (env 0%nat)))))
        with ((TickerArmed start livePollInterval
                 :: sendEvents (symbolOf query) q (env 0%nat) start)
              ++ fst (tickLoop fuel (symbolOf query) env 1
                        (NewTicker start livePollInterval)
                        (start + Z.of_N (fetchTime (env 0%nat))
                         + Z.of_N (writeTime (env 0%nat))))).
      rewrite !count_app, quiet_app, Hs, Ht, HR.
      unfold sendEvents, count. cbn. rewrite W. repeat split.
Qed.

(** X9. [handleWS] returns only after logging an error, and releases
    what it holds exactly then: when the upgrade failed there is nothing
    to release and nothing else is done; otherwise the log line is
    followed by the stop of the ticker and the close of the connection,
    and nothing before it logs, stops or closes. While the session runs
    it does none of the three. *)
Theorem handleWS_release upgrade env start fuel query :
  let run := handleWS upgrade env start fuel query in
  match snd run with
  | Blocked => upgrade = None /\ quiet (fst run) = true
  | Returned =>
      (exists err,
         upgrade = Some err
         /\ fst run = [Log {| prefix := "ws upgrade:"; cause := err |}])
      \/ (upgrade = None
          /\ exists body l,
               fst run = body ++ [Log l; TickerStop; ConnClose]
               /\ quiet body = true)
  end.
Proof.
  intros run. subst run. destruct upgrade as [e|].
  - cbn. left. exists e. auto.
  - pose proof (tickLoop_run env (symbolOf query) fuel 1
                  (NewTicker start livePollInterval)
                  (start + Z.of_N (fetchTime (env 0%nat))
                   + Z.of_N (writeTime (env 0%nat)))) as HR.
    apply loopRun_release in HR.
    destruct (handleWS_run env start fuel query)
      as [(err & F & ->)|[(q & err & F & W & ->)|(q & F & W & ->)]];
      cbn [fst snd].
    + right. split; [reflexivity|]. eexists [_; _], _. split; reflexivity.
    + right. split; [reflexivity|].
      eexists (_ :: sendEvents (symbolOf query) q (env 0%nat) start), _.
      split; reflexivity.
    + destruct (snd (tickLoop fuel (symbolOf query) env 1 _ _)).
      * right. split; [reflexivity|].
        destruct HR as (body & l & -> & Hq).
        exists (TickerArmed start livePollInterval
                  :: sendEvents (symbolOf query) q (env 0%nat) start ++ body), l.
        split; [unfold sendEvents; cbn [app]; rewrite <- app_assoc; reflexivity|].
        change (quiet (sendEvents (symbolOf query) q (env 0%nat) start ++ body)
                = true).
        rewrite quiet_app, Hq. reflexivity.
      * split; [reflexivity|]. rewrite app_nil_r.
        change (quiet (sendEvents (symbolOf query) q (env 0%nat) start
                         ++ fst (tickLoop fuel (symbolOf query) env 1
                                   (NewTicker start livePollInterval)
                                   (start + Z.of_N (fetchTime (env 0%nat))
                                    + Z.of_N (writeTime (env 0%nat)))))
                = true).
        rewrite quiet_app, HR. reflexivity.
Qed.

(** A session in which nothing fails, followed for three firings. *)
Example stream_steady :
  let run := handleWS None steady 0 3 ∅ in
  snd run = Blocked /\ count isSent (fst run) = 4%nat
  /\ count isGet (fst run) = 4%nat /\ quiet (fst run) = true
  /\ tickTimes (fst run) = [5000000000; 10000000000; 15000000000].
Proof. repeat split. Qed.

Lemma recv_ge tk now : now <= fst (recv tk now).
Proof. unfold recv. cbn [fst]. lia. Qed.

Lemma spacedBy_cons a l :
  Forall (fun t => a <= t) l -> spacedBy 0 l = true -> spacedBy 0 (a :: l) = true.
Proof.
  destruct l as [|b l]; [reflexivity|]. intros Ha Hl.
  apply Forall_inv in Ha.
  change (spacedBy 0 (a :: b :: l))
    with ((a + 0 <=? b) && spacedBy 0 (b :: l)).
  rewrite Hl, andb_true_r.
  apply Z.leb_le. lia.
Qed.

Lemma writesUnderDeadline_deferred tr p : forall set,
  writesUnderDeadline set
    (tr ++ match p with
           | Returned => [TickerStop; ConnClose]
           | Blocked => []
           end)
  = writesUnderDeadline set tr.
Proof.
  induction tr as [|e tr IH]; intros set.
  - destruct p; reflexivity.
  - destruct e; cbn [app writesUnderDeadline]; rewrite ?IH; reflexivity.
Qed.

Section Pace.

Variable env : nat -> exchange.
Variable symbol : string.

(** In the loop every firing received is followed at once by one request
    for the session's symbol, and every request but a failing last one by
    a message. *)
Lemma loopRun_gets k tk clock evs p :
  loopRun symbol env k tk clock evs p ->
  getTimes evs = tickTimes evs
  /\ Forall (fun url => url = quoteURL symbol) (getURLs evs)
  /\ length (getTimes evs)
     = (count isSent evs
        + match p with Returned => 1 | Blocked => 0 end)%nat.
Proof.
  induction 1 as [k tk clock|k tk clock err F|k tk clock q err F W
                  |k tk clock q rest p F W HR (IH1 & IH2 & IH3)].
  - repeat split. constructor.
  - repeat split. repeat constructor.
  - unfold sendEvents, count. rewrite W. repeat split. repeat constructor.
  - unfold sendEvents, count in *. rewrite W. cbn [app].
    unfold getTimes, getURLs in *. cbn.
    split; [rewrite IH1; reflexivity|].
    split; [constructor; [reflexivity|exact IH2]|].
    cbn in IH3. rewrite IH3. reflexivity.
Qed.

(** In the loop every write directly follows the setting of its
    deadline, 5 s after the clock reading of its call. *)
Lemma loopRun_deadlines k tk clock evs p :
  loopRun symbol env k tk clock evs p ->
  (forall set, writesUnderDeadline set evs = true)
  /\ (forall n d, deadlines evs !! n = Some d ->
        d = Add (wallAtDeadline (env (k + n)%nat)) (5 * Second))
  /\ length (deadlines evs) = length (writeTimes evs).
Proof.
  induction 1 as [k tk clock|k tk clock err F|k tk clock q err F W
                  |k tk clock q rest p F W HR (IH1 & IH2 & IH3)].
  - repeat split. intros n d. discriminate.
  - repeat split. intros n d. discriminate.
  - repeat split. intros [|n] d; [|discriminate].
    intros [= <-]. rewrite Nat.add_0_r. reflexivity.
  - split; [|split].
    + intros set. cbn. apply IH1.
    + intros [|n] d.
      * intros [= <-]. rewrite Nat.add_0_r. reflexivity.
      * intros Hn. rewrite <- Nat.add_succ_comm. apply IH2. exact Hn.
    + unfold deadlines, writeTimes in *. cbn. rewrite IH3. reflexivity.
Qed.

(** In the loop the events come in the order of the clock, none before
    the loop was entered; and a firing is received only once the write
    before it has returned. *)
Lemma loopRun_times k tk clock evs p :
  loopRun symbol env k tk clock evs p ->
  Forall (fun t => clock <= t) (times evs)
  /\ spacedBy 0 (times evs) = true
  /\ (forall j t w,
        tickTimes evs !! (S j) = Some t -> writeTimes evs !! j = Some w ->
        w + Z.of_N (writeTime (env (k + j)%nat)) <= t).
Proof.
  induction 1 as [k tk clock|k tk clock err F|k tk clock q err F W
                  |k tk clock q rest p F W HR (IH1 & IH2 & IH3)].
  - repeat split. constructor. intros j t w. discriminate.
  - pose proof (recv_ge tk clock). repeat split.
    + repeat constructor; lia.
    + cbn. rewrite Z.add_0_r, Z.leb_refl. reflexivity.
    + intros j t w. discriminate.
  - pose proof (recv_ge tk clock). repeat split.
    + repeat constructor; lia.
    + cbn. rewrite Z.add_0_r, Z.leb_refl. cbn.
      apply andb_true_iff. split; [apply Z.leb_le; lia|reflexivity].
    + intros j t w. discriminate.
  - pose proof (recv_ge tk clock) as Hge.
    set (t0 := fst (recv tk clock)) in *.
    assert (Forall (fun t => t0 + Z.of_N (fetchTime (env k)) <= t) (times rest))
      as Hrest.
    { eapply Forall_impl; [exact IH1|]. cbn. intros t Ht. lia. }
    assert (Forall (fun t => t0 <= t) (times rest)) as Hrest0.
    { eapply Forall_impl; [exact IH1|]. cbn. intros t Ht. lia. }
    assert (Forall (fun t => clock <= t) (times rest)) as Hrest1.
    { eapply Forall_impl; [exact IH1|]. cbn. intros t Ht. lia. }
    change (times (Tick t0 :: sendEvents symbol q (env k) t0 ++ rest))
      with (t0 :: t0 :: (t0 + Z.of_N (fetchTime (env k))) :: times rest).
    split; [|split].
    + repeat (apply Forall_cons; split; [lia|]). exact Hrest1.
    + apply spacedBy_cons.
      { repeat (apply Forall_cons; split; [lia|]). exact Hrest0. }
      apply spacedBy_cons.
      { apply Forall_cons; split; [lia|]. exact Hrest0. }
      apply spacedBy_cons; [exact Hrest|exact IH2].
    + change (tickTimes (Tick t0 :: sendEvents symbol q (env k) t0 ++ rest))
        with (t0 :: tickTimes rest).
      change (writeTimes (Tick t0 :: sendEvents symbol q (env k) t0 ++ rest))
        with ((t0 + Z.of_N (fetchTime (env k))) :: writeTimes rest).
      intros [|j] t w; cbn [lookup list_lookup].
      * intros Ht [= <-]. rewrite Nat.add_0_r.
        assert (t ∈ times rest) as Hin.
        { clear - HR Ht. induction HR; try discriminate Ht;
            cbn in Ht; injection Ht as <-; unfold times; cbn; left. }
        rewrite Forall_forall in IH1. specialize (IH1 t Hin). lia.
      * intros Ht Hw. rewrite <- Nat.add_succ_comm. apply (IH3 j t w Ht Hw).
Qed.

End Pace.

Lemma omap_deferred {A} (f : event -> option A) p :
  f TickerStop = None -> f ConnClose = None ->
  omap f (match p with
          | Returned => [TickerStop; ConnClose]
          | Blocked => []
          end) = [].
Proof. intros H1 H2. destruct p; cbn; rewrite ?H1, ?H2; reflexivity. Qed.

Lemma count_deferred_sent p :
  count isSent (match p with
                | Returned => [TickerStop; ConnClose]
                | Blocked => []
                end) = 0%nat.
Proof. destruct p; reflexivity. Qed.

(** X10. A session that was upgraded asks Finnhub once when it starts
    and once, at once, for each firing it receives, always for the quote
    of its own symbol, which is never empty; every request but a failing
    last one is followed by a message; and the n-th request after the
    first is made no earlier than n times 5 s after the ticker was
    armed. *)
Theorem handleWS_fetches env start fuel query :
  let run := handleWS None env start fuel query in
  getTimes (fst run) = start :: tickTimes (fst run)
  /\ symbolOf query <> ""
  /\ Forall (fun url => url = quoteURL (symbolOf query)) (getURLs (fst run))
  /\ length (getTimes (fst run))
     = (count isSent (fst run)
        + match snd run with Returned => 1 | Blocked => 0 end)%nat
  /\ (forall n t, getTimes (fst run) !! n = Some t ->
        start + Z.of_nat n * (5 * Second) <= t).
Proof.
  intros run. subst run.
  assert (symbolOf query <> "") as Hne.
  { unfold symbolOf. destruct (String.eqb_spec (Get query "symbol") "");
      [discriminate|assumption]. }
  pose proof (tickLoop_run env (symbolOf query) fuel 1
                (NewTicker start livePollInterval)
                (start + Z.of_N (fetchTime (env 0%nat))
                 + Z.of_N (writeTime (env 0%nat)))) as HR.
  apply loopRun_gets in HR. destruct HR as (H1 & H2 & H3).
  pose proof (tickLoop_ticks env (symbolOf query) fuel 1
                (NewTicker start livePollInterval)
                (start + Z.of_N (fetchTime (env 0%nat))
                 + Z.of_N (writeTime (env 0%nat))) 0
                livePollInterval_pos) as HT.
  cbn [NewTicker armedAt period lastRecv] in HT.
  destruct (handleWS_run env start fuel query)
    as [(err & F & ->)|[(q & err & F & W & ->)|(q & F & W & ->)]]; cbn [fst snd].
  - split; [reflexivity|]. split; [exact Hne|]. repeat split.
    repeat constructor.
    intros [|n] t; [|discriminate]. intros [= <-]. lia.
  - unfold sendEvents, count. rewrite W.
    split; [reflexivity|]. split; [exact Hne|]. repeat split.
    repeat constructor.
    intros [|n] t; [|discriminate]. intros [= <-]. lia.
  - set (loop := tickLoop fuel (symbolOf query) env 1 _ _) in *.
    set (tail := match snd loop with
                 | Returned => [TickerStop; ConnClose]
                 | Blocked => []
                 end).
    assert (getTimes (TickerArmed start livePollInterval
                        :: sendEvents (symbolOf query) q (env 0%nat) start
                        ++ fst loop ++ tail)
            = start :: tickTimes (fst loop)) as HG.
    { unfold sendEvents, getTimes. cbn [app]. cbn.
      rewrite omap_app. subst tail. rewrite omap_deferred by reflexivity.
      rewrite app_nil_r. fold (getTimes (fst loop)). rewrite H1. reflexivity. }
    assert (tickTimes (TickerArmed start livePollInterval
                         :: sendEvents (symbolOf query) q (env 0%nat) start
                         ++ fst loop ++ tail)
            = tickTimes (fst loop)) as HK.
    { unfold sendEvents. cbn [app tickTimes].
      rewrite tickTimes_app. subst tail. rewrite tickTimes_deferred.
      apply app_nil_r. }
    rewrite HG, HK. split; [reflexivity|]. split; [exact Hne|].
    split; [|split].
    + unfold sendEvents, getURLs. cbn [app]. cbn.
      constructor; [reflexivity|].
      rewrite omap_app. subst tail. rewrite omap_deferred by reflexivity.
      rewrite app_nil_r. exact H2.
    + cbn [length]. rewrite <- H1, H3.
      change (TickerArmed start livePollInterval
                :: sendEvents (symbolOf query) q (env 0%nat) start
                ++ fst loop ++ tail)
        with ((TickerArmed start livePollInterval
                 :: sendEvents (symbolOf query) q (env 0%nat) start)
              ++ fst loop ++ tail).
      rewrite !count_app. subst tail. rewrite count_deferred_sent.
      unfold sendEvents, count. cbn. rewrite W. cbn. lia.
    + intros [|n] t; cbn [lookup list_lookup].
      * intros [= <-]. lia.
      * intros Hn. apply (HT ltac:(lia) n t Hn).
Qed.

(** X11. Every write of a session directly follows the setting of its
    deadline, which is 5 s after a reading of the wall clock made for it;
    there are as many deadlines set as writes made. *)
Theorem handleWS_deadlines env start fuel query :
  let tr := fst (handleWS None env start fuel query) in
  writesUnderDeadline false tr = true
  /\ (forall n d, deadlines tr !! n = Some d ->
        d = Add (wallAtDeadline (env n)) (5 * Second))
  /\ length (deadlines tr) = length (writeTimes tr).
Proof.
  intros tr. subst tr.
  pose proof (tickLoop_run env (symbolOf query) fuel 1
                (NewTicker start livePollInterval)
                (start + Z.of_N (fetchTime (env 0%nat))
                 + Z.of_N (writeTime (env 0%nat)))) as HR.
  apply loopRun_deadlines in HR. destruct HR as (H1 & H2 & H3).
  destruct (handleWS_run env start fuel query)
    as [(err & F & ->)|[(q & err & F & W & ->)|(q & F & W & ->)]]; cbn [fst snd].
  - repeat split. intros n d. discriminate.
  - repeat split. intros [|n] d; [|discriminate]. intros [= <-]. reflexivity.
  - set (loop := tickLoop fuel (symbolOf query) env 1 _ _) in *.
    split; [|split].
    + unfold sendEvents. cbn [app writesUnderDeadline andb].
      rewrite writesUnderDeadline_deferred. apply H1.
    + unfold sendEvents, deadlines. cbn [app]. cbn.
      rewrite omap_app, omap_deferred by reflexivity. rewrite app_nil_r.
      intros [|n] d; cbn [lookup list_lookup].
      * intros [= <-]. reflexivity.
      * intros Hn. apply (H2 n d Hn).
    + unfold sendEvents, deadlines, writeTimes in *. cbn [app]. cbn.
      rewrite !omap_app, !omap_deferred by reflexivity. rewrite !app_nil_r.
      rewrite H3. reflexivity.
Qed.

(** X12. The events of a session come in the order of its clock, and
    each firing is received only once the write before it has returned:
    no two calls of [sendQuote] of a session overlap. *)
Theorem handleWS_chronological env start fuel query :
  let tr := fst (handleWS None env start fuel query) in
  spacedBy 0 (times tr) = true
  /\ (forall k t w,
        tickTimes tr !! k = Some t -> writeTimes tr !! k = Some w ->
        w + Z.of_N (writeTime (env k)) <= t).
Proof.
  intros tr. subst tr.
  pose proof (tickLoop_run env (symbolOf query) fuel 1
                (NewTicker start livePollInterval)
                (start + Z.of_N (fetchTime (env 0%nat))
                 + Z.of_N (writeTime (env 0%nat)))) as HR.
  assert (forall t,
            tickTimes (fst (tickLoop fuel (symbolOf query) env 1
                              (NewTicker start livePollInterval)
                              (start + Z.of_N (fetchTime (env 0%nat))
                               + Z.of_N (writeTime (env 0%nat))))) !! 0%nat
            = Some t ->
            start + Z.of_N (fetchTime (env 0%nat))
            + Z.of_N (writeTime (env 0%nat)) <= t) as H0.
  { intros t Ht. pose proof (loopRun_times _ _ _ _ _ _ _ HR) as (HA & _ & _).
    rewrite Forall_forall in HA. apply HA.
    clear - HR Ht. induction HR; try discriminate Ht;
      cbn in Ht; injection Ht as <-; unfold times; cbn; left. }
  apply loopRun_times in HR. destruct HR as (H1 & H2 & H3).
  destruct (handleWS_run env start fuel query)
    as [(err & F & ->)|[(q & err & F & W & ->)|(q & F & W & ->)]]; cbn [fst snd].
  - split; [cbn; rewrite Z.add_0_r, Z.leb_refl; reflexivity|].
    intros k t w. discriminate.
  - split.
    + cbn. rewrite Z.add_0_r, Z.leb_refl. cbn.
      apply andb_true_iff. split; [apply Z.leb_le; lia|reflexivity].
    + intros k t w. discriminate.
  - set (loop := tickLoop fuel (symbolOf query) env 1 _ _) in *.
    set (tail := match snd loop with
                 | Returned => [TickerStop; ConnClose]
                 | Blocked => []
                 end).
    assert (times (TickerArmed start livePollInterval
                     :: sendEvents (symbolOf query) q (env 0%nat) start
                     ++ fst loop ++ tail)
            = start :: start :: (start + Z.of_N (fetchTime (env 0%nat)))
                :: times (fst loop)) as HT.
    { unfold sendEvents, times. cbn [app]. cbn.
      rewrite omap_app. subst tail. rewrite omap_deferred by reflexivity.
      rewrite app_nil_r. reflexivity. }
    assert (tickTimes (TickerArmed start livePollInterval
                         :: sendEvents (symbolOf query) q (env 0%nat) start
                         ++ fst loop ++ tail)
            = tickTimes (fst loop)) as HK.
    { unfold sendEvents. cbn [app tickTimes].
      rewrite tickTimes_app. subst tail. rewrite tickTimes_deferred.
      apply app_nil_r. }
    assert (writeTimes (TickerArmed start livePollInterval
                          :: sendEvents (symbolOf query) q (env 0%nat) start
                          ++ fst loop ++ tail)
            = (start + Z.of_N (fetchTime (env 0%nat)))
                :: writeTimes (fst loop)) as HW.
    { unfold sendEvents, writeTimes. cbn [app]. cbn.
      rewrite omap_app. subst tail. rewrite omap_deferred by reflexivity.
      rewrite app_nil_r. reflexivity. }
    rewrite HT, HK, HW.
    assert (Forall (fun t => start + Z.of_N (fetchTime (env 0%nat)) <= t)
              (times (fst loop))) as Hl.
    { eapply Forall_impl; [exact H1|]. cbn. intros t Ht. lia. }
    assert (Forall (fun t => start <= t) (times (fst loop))) as Hs.
    { eapply Forall_impl; [exact H1|]. cbn. intros t Ht. lia. }
    split.
    + apply spacedBy_cons.
      { repeat (apply Forall_cons; split; [lia|]). exact Hs. }
      apply spacedBy_cons.
      { apply Forall_cons; split; [lia|]. exact Hs. }
      apply spacedBy_cons; [exact Hl|exact H2].
    + intros [|k] t w; cbn [lookup list_lookup].
      * intros Ht [= <-]. apply (H0 t Ht).
      * intros Ht Hw. apply (H3 k t w Ht Hw).
Qed.

(* ===================================================================== *)
(** * The messages of a session *)
(* ===================================================================== *)

Section Messages.

Variable env : nat -> exchange.
Variable symbol : string.

(** The loop writes the message of a call whose fetch succeeds, once the
    calls before it have all succeeded. *)
Lemma tickLoop_payload m : forall fuel k tk clock q,
  (m < fuel)%nat ->
  (forall i, (i < m)%nat -> sendSucceeds symbol (env (k + i)%nat)) ->
  snd (fetchQuote (fun _ => reply (env (k + m)%nat)) symbol) = inr q ->
  payloads (fst (tickLoop fuel symbol env k tk clock)) !! m
  = Some (MapAny {[ "symbol" := VString symbol;
                    "price" := VFloat64 (QuoteResp.Current q);
                    "time" := VInt64 (UnixMilli
                                        (wallAtPayload (env (k + m)%nat))) ]}).
Proof.
  induction m as [|m IH]; intros fuel k tk clock q Hfuel Hok F;
    (destruct fuel as [|fuel]; [lia|]); cbn [tickLoop];
    destruct (recv tk clock) as [t0 tk'].
  - rewrite Nat.add_0_r in *. rewrite (sendQuote_fetched _ _ _ _ F).
    destruct (writeErr (env k)) as [e|]; [reflexivity|].
    destruct (tickLoop fuel symbol env (S k) tk' _) as [rest p]. reflexivity.
  - destruct (Hok 0%nat ltac:(lia)) as (q0 & F0 & W0).
    rewrite Nat.add_0_r in F0, W0.
    rewrite (sendQuote_fetched _ _ _ _ F0), W0.
    specialize (IH fuel (S k) tk' (t0 + Z.of_N (fetchTime (env k))
                                   + Z.of_N (writeTime (env k))) q).
    destruct (tickLoop fuel symbol env (S k) tk' _) as [rest p].
    cbn [fst] in *. cbn [app payloads lookup list_lookup].
    rewrite <- Nat.add_succ_comm. apply IH.
    + lia.
    + intros i Hi. rewrite Nat.add_succ_comm. apply Hok. lia.
    + rewrite Nat.add_succ_comm. exact F.
Qed.

End Messages.

(** C9. A session whose query has no [symbol] (absent, or empty) is about
    "AAPL", and any other session about the symbol of its query: it asks
    Finnhub for the quote of that symbol, first of all and every time.
    Each call of [sendQuote] whose fetch succeeds, the calls before it
    having succeeded, writes a map of exactly three entries: that symbol,
    the price just fetched, and the wall clock at the time in
    milliseconds since the epoch; and nothing else is ever written. *)
Theorem handleWS_messages env start fuel query symbol :
  ((query !! "symbol" = None \/ Get query "symbol" = "") /\ symbol = "AAPL")
  \/ (Get query "symbol" <> "" /\ symbol = Get query "symbol") ->
  let run := handleWS None env start fuel query in
  symbolOf query = symbol
  /\ fst run !! 1%nat = Some (HttpGet start (quoteURL symbol))
  /\ Forall (fun url => url = quoteURL symbol) (getURLs (fst run))
  /\ (forall n q,
        (n <= fuel)%nat ->
        (forall i, (i < n)%nat -> sendSucceeds symbol (env i)) ->
        snd (fetchQuote (fun _ => reply (env n)) symbol) = inr q ->
        payloads (fst run) !! n
        = Some (MapAny {[ "symbol" := VString symbol;
                          "price" := VFloat64 (QuoteResp.Current q);
                          "time" := VInt64 (UnixMilli
                                              (wallAtPayload (env n))) ]}))
  /\ (forall upgrade n v,
        payloads (fst (handleWS upgrade env start fuel query)) !! n = Some v ->
        exists q m,
          snd (fetchQuote (fun _ => reply (env n)) symbol) = inr q
          /\ v = MapAny m
          /\ m = {[ "symbol" := VString symbol;
                    "price" := VFloat64 (QuoteResp.Current q);
                    "time" := VInt64 (UnixMilli (wallAtPayload (env n))) ]}
          /\ dom m = {[ "symbol"; "price"; "time" ]}).
Proof.
  intros Hsym run. subst run.
  assert (symbolOf query = symbol) as Hs.
  { unfold symbolOf. destruct Hsym as [[[Hq|Hq] ->]|[Hq ->]].
    - unfold Get. rewrite Hq. reflexivity.
    - rewrite Hq. reflexivity.
    - apply String.eqb_neq in Hq. rewrite Hq. reflexivity. }
  clear Hsym.
  assert (forall (q : quoteResp) (t : Z),
            dom ({[ "symbol" := VString symbol;
                    "price" := VFloat64 (QuoteResp.Current q);
                    "time" := VInt64 t ]} : gmap string any)
            = {[ "symbol"; "price"; "time" ]}) as Hdom.
  { intros. rewrite !dom_insert_L, dom_singleton_L. set_solver. }
  pose proof (tickLoop_run env symbol fuel 1
                (NewTicker start livePollInterval)
                (start + Z.of_N (fetchTime (env 0%nat))
                 + Z.of_N (writeTime (env 0%nat)))) as HR.
  apply loopRun_gets in HR. destruct HR as (_ & HU & _).
  pose proof (tickLoop_payload env symbol) as HP.
  pose proof (tickLoop_payloads env symbol fuel 1
                (NewTicker start livePollInterval)
                (start + Z.of_N (fetchTime (env 0%nat))
                 + Z.of_N (writeTime (env 0%nat)))) as HL.
  split; [exact Hs|].
  assert (forall n v,
            payloads (fst (handleWS None env start fuel query)) !! n = Some v ->
            exists q m,
              snd (fetchQuote (fun _ => reply (env n)) symbol) = inr q
              /\ v = MapAny m
              /\ m = {[ "symbol" := VString symbol;
                        "price" := VFloat64 (QuoteResp.Current q);
                        "time" := VInt64 (UnixMilli (wallAtPayload (env n))) ]}
              /\ dom m = {[ "symbol"; "price"; "time" ]}) as Hsound.
  { intros n v.
    destruct (handleWS_run env start fuel query)
      as [(err & F & ->)|[(q & err & F & W & ->)|(q & F & W & ->)]];
      rewrite Hs in *; cbn [fst snd].
    - cbn. discriminate.
    - unfold sendEvents. destruct n as [|n]; cbn; [|discriminate].
      intros [= <-]. eauto 10.
    - unfold sendEvents. cbn [app payloads].
      rewrite payloads_app, payloads_deferred, app_nil_r.
      destruct n as [|n]; cbn [lookup list_lookup].
      + intros [= <-]. eauto 10.
      + intros Hn. destruct (HL n v Hn) as (q' & Hq & ->). eauto 10. }
  destruct (handleWS_run env start fuel query)
    as [(err & F & Hrun)|[(q & err & F & W & Hrun)|(q & F & W & Hrun)]];
    rewrite Hs in *; rewrite Hrun; cbn [fst snd].
  - split; [reflexivity|]. split; [repeat constructor|]. split.
    + intros n q Hn Hok Fn. exfalso. destruct n as [|n]; [congruence|].
      destruct (Hok 0%nat ltac:(lia)) as (q0 & F0 & _). congruence.
    + intros [e|] n v; [cbn; discriminate|]. apply Hsound.
  - split; [reflexivity|]. split; [repeat constructor|]. split.
    + intros n q' Hn Hok Fn. destruct n as [|n].
      * unfold sendEvents. cbn. congruence.
      * exfalso. destruct (Hok 0%nat ltac:(lia)) as (q0 & _ & W0). congruence.
    + intros [e|] n v; [cbn; discriminate|]. apply Hsound.
  - split; [reflexivity|]. split; [|split].
    + unfold sendEvents, getURLs. cbn [app]. cbn.
      constructor; [reflexivity|].
      rewrite omap_app, omap_deferred by reflexivity. rewrite app_nil_r.
      exact HU.
    + intros n q' Hn Hok Fn. unfold sendEvents. cbn [app payloads].
      rewrite payloads_app, payloads_deferred, app_nil_r.
      destruct n as [|n]; cbn [lookup list_lookup].
      * congruence.
      * apply (HP n fuel 1%nat).
        -- lia.
        -- intros i Hi. apply Hok. lia.
        -- exact Fn.
    + intros [e|] n v; [cbn; discriminate|]. apply Hsound.
Qed.

Lemma handleWS_messages_witness :
  fst (handleWS None slowStart 0 2 ∅) !! 1%nat
  = Some (HttpGet 0 (quoteURL "AAPL"))
  /\ payloads (fst (handleWS None slowStart 0 2 ∅)) !! 1%nat
     = Some (MapAny {[ "symbol" := VString "AAPL";
                       "price" := VFloat64 189.5%float;
                       "time" := VInt64 1700000005100 ]}).
Proof.
  destruct (handleWS_messages slowStart 0 2 ∅ "AAPL") as (_ & H1 & _ & H3 & _).
  - left. split; [left; reflexivity|reflexivity].
  - split; [exact H1|].
    apply (H3 1%nat {| QuoteResp.Current := 189.5; QuoteResp.High := 190;
                       QuoteResp.Low := 0; QuoteResp.Open := 0;
                       QuoteResp.PrevClose := 0 |}%float).
    + lia.
    + intros i Hi. destruct i as [|i]; [|lia]. eexists. split; reflexivity.
    + reflexivity.
Defined.
